(** * zen-particles: the gesture interpreter and the geometry generator

  A shallow embedding of

  - [src/zen-particles/src/components/Controls.tsx]: [distance3d],
    [computeTension] and the [processFrame] callback of [HandTracker];
  - [src/zen-particles/src/utils/geometryFactory.ts]: the point samplers and
    [generateGeometry];
  - the scene renderer [SceneRenderer]: [createDotCloud] and the part of
    [animate] that places the camera and moves the dots; the zoom bar of
    [App].

  Numbers.  A JavaScript [number] is an IEEE 754 double.  The embedding keeps
  the special values that the arithmetic of the source can produce from
  ordinary inputs (the two infinities and NaN, out of the single division of
  [computeTension]) and computes on the finite values with real arithmetic:
  rounding, overflow and underflow are left out.  Where a double that
  overflows, or underflows to zero, would change the tension of a hand, the
  theorems bound the magnitudes of their inputs ([Inputs.bounded_hand],
  [Inputs.sized_hand], [Inputs.in_range]), and the gate of the fist is
  stated with a margin around its threshold.  The geometry generator never
  divides by zero and never leaves the domain of a function, so it is
  written over the reals directly. *)

From Stdlib Require Import Reals Lra Lia List String.
From stdpp Require Import base list.

Open Scope R_scope.

(* ===================================================================== *)
(** ** JavaScript numbers *)
(* ===================================================================== *)

Module JsNumber.

Inductive number : Type :=
| Fin (r : R)
| PInf
| NInf
| NaN.

(** An infinity of the given sign. *)
Definition inf_of (positive : bool) : number :=
  if positive then PInf else NInf.

(** An infinity times (or a zero divisor under) a finite value [r]: the sign
    follows the sign of [r], and a zero [r] gives NaN. *)
Definition scale_inf (positive : bool) (r : R) : number :=
  if Rlt_dec 0 r then inf_of positive
  else if Rlt_dec r 0 then inf_of (negb positive)
  else NaN.

Definition add (a b : number) : number :=
  match a, b with
  | Fin x, Fin y => Fin (x + y)
  | NaN, _ | _, NaN => NaN
  | PInf, NInf | NInf, PInf => NaN
  | PInf, _ | _, PInf => PInf
  | NInf, _ | _, NInf => NInf
  end.

Definition neg (a : number) : number :=
  match a with
  | Fin x => Fin (- x)
  | PInf => NInf
  | NInf => PInf
  | NaN => NaN
  end.

Definition sub (a b : number) : number :=
  match a, b with
  | Fin x, Fin y => Fin (x - y)
  | _, _ => add a (neg b)
  end.

Definition mul (a b : number) : number :=
  match a, b with
  | Fin x, Fin y => Fin (x * y)
  | NaN, _ | _, NaN => NaN
  | Fin x, PInf | PInf, Fin x => scale_inf true x
  | Fin x, NInf | NInf, Fin x => scale_inf false x
  | PInf, PInf | NInf, NInf => PInf
  | PInf, NInf | NInf, PInf => NInf
  end.

(** Division.  A finite zero stands for the positive zero: the one divisor of
    the source, [palmSize * 1.6], is a sum of square roots over a positive
    constant and is never the negative zero. *)
Definition div (a b : number) : number :=
  match a, b with
  | NaN, _ | _, NaN => NaN
  | Fin x, Fin y => if Req_dec_T y 0 then scale_inf true x else Fin (x / y)
  | Fin _, (PInf | NInf) => Fin 0
  | PInf, Fin y => if Rlt_dec y 0 then NInf else PInf
  | NInf, Fin y => if Rlt_dec y 0 then PInf else NInf
  | (PInf | NInf), (PInf | NInf) => NaN
  end.

(** [Math.sqrt] *)
Definition Math_sqrt (a : number) : number :=
  match a with
  | Fin x => if Rlt_dec x 0 then NaN else Fin (sqrt x)
  | PInf => PInf
  | NInf => NaN
  | NaN => NaN
  end.

(** [Math.max] and [Math.min] of two arguments: NaN as soon as one argument
    is NaN. *)
Definition Math_max (a b : number) : number :=
  match a, b with
  | NaN, _ | _, NaN => NaN
  | PInf, _ | _, PInf => PInf
  | NInf, c | c, NInf => c
  | Fin x, Fin y => Fin (Rmax x y)
  end.

Definition Math_min (a b : number) : number :=
  match a, b with
  | NaN, _ | _, NaN => NaN
  | NInf, _ | _, NInf => NInf
  | PInf, c | c, PInf => c
  | Fin x, Fin y => Fin (Rmin x y)
  end.

(** [a > b]: false as soon as one side is NaN. *)
Definition gt (a b : number) : bool :=
  match a, b with
  | NaN, _ | _, NaN => false
  | Fin x, Fin y => if Rlt_dec y x then true else false
  | PInf, (Fin _ | NInf) => true
  | Fin _, NInf => true
  | _, _ => false
  end.

(** [a === b] on numbers: NaN is different from itself. *)
Definition strict_eq (a b : number) : bool :=
  match a, b with
  | Fin x, Fin y => if Req_dec_T x y then true else false
  | PInf, PInf | NInf, NInf => true
  | _, _ => false
  end.

(** [a || 0]: the falsy numbers are zero and NaN. *)
Definition or_zero (a : number) : number :=
  match a with
  | NaN => Fin 0
  | _ => a
  end.

Definition is_finite (a : number) : Prop :=
  match a with
  | Fin _ => True
  | _ => False
  end.

(** [lo <= a <= hi], which no NaN satisfies. *)
Definition within (lo hi : R) (a : number) : Prop :=
  match a with
  | Fin x => lo <= x <= hi
  | _ => False
  end.

End JsNumber.

Import JsNumber.
Coercion Fin : R >-> number.

Declare Scope js_scope.
Delimit Scope js_scope with js.
Bind Scope js_scope with number.
Infix "+" := add : js_scope.
Infix "-" := sub : js_scope.
Infix "*" := mul : js_scope.
Infix "/" := div : js_scope.
Notation "- a" := (neg a) : js_scope.
Infix ">?" := gt (at level 70, no associativity) : js_scope.
Infix "===" := strict_eq (at level 70, no associativity) : js_scope.

(* ===================================================================== *)
(** ** The gesture interpreter (Controls.tsx) *)
(* ===================================================================== *)

(** [NormalizedLandmark] of the detector: a point of the camera space. *)
Module Landmark.
Record t : Type := mk { x : number; y : number; z : number }.
End Landmark.

(** The objects [{ x, y }] held by [lastPan] and [baseWristPos]. *)
Module Vec2.
Record t : Type := mk { x : number; y : number }.
End Vec2.

(** [HandControls] of types.ts. *)
Record HandControls : Type := mkControls {
  zoom : number;
  panX : number;
  panY : number;
  hasBothHands : bool
}.

Module Gesture.

Local Open Scope js_scope.

Definition distance3d (a b : Landmark.t) : number :=
  let dx := Landmark.x a - Landmark.x b in
  let dy := Landmark.y a - Landmark.y b in
  let dz := or_zero (Landmark.z a) - or_zero (Landmark.z b) in
  Math_sqrt (dx * dx + dy * dy + dz * dz).

(** [indices.map((i) => landmarks[i])].  An index past the end of the array
    reads [undefined], and [distance3d] raises a TypeError on it as soon as
    it reads a coordinate: [None] stands for that TypeError. *)
Definition pick (landmarks : list Landmark.t) (indices : list nat)
  : option (list Landmark.t) :=
  mapM (fun i : nat => landmarks !! i) indices.

(** [points.reduce((acc, p) => acc + distance3d(p, wrist), 0)] *)
Definition sum_distances (points : list Landmark.t) (wrist : Landmark.t) : number :=
  fold_left (fun acc p => acc + distance3d p wrist) points (Fin 0).

Definition computeTension (landmarks : list Landmark.t) : option number :=
  wrist ← landmarks !! 0%nat;
  fingerTips ← pick landmarks [4; 8; 12; 16; 20]%nat;
  bases ← pick landmarks [5; 9; 13; 17]%nat;
  let avgTip := sum_distances fingerTips wrist / Fin (INR (length fingerTips)) in
  let palmSize := sum_distances bases wrist / Fin (INR (length bases)) in
  let openRatio := avgTip / (palmSize * 1.6) in
  let tension := 1 - Math_min (Math_max openRatio 0) 1 in
  Some (Math_min (Math_max tension 0) 1).

(** [THREE.MathUtils.clamp(value, min, max)] of three.js, which is
    [Math.max(min, Math.min(max, value))]. *)
Definition MathUtils_clamp (value lo hi : number) : number :=
  Math_max lo (Math_min hi value).

(** The refs of the [HandTracker] component that [processFrame] reads and
    writes.  [handLandmarker] and [videoRef] record whether the ref holds an
    object; [rafRef] holds the handle of the last requested callback. *)
Record Tracker : Type := mkTracker {
  handLandmarker : bool;
  videoRef : bool;
  rafRef : option nat;
  lastVideoTime : number;
  lastPan : Vec2.t;
  lastZoom : number;
  baseWristPos : option Vec2.t;
  controlsRef : HandControls
}.

(** What one call of [processFrame] meets in its environment: the time of
    the video, the hands the detector reports for the frame (it is asked
    only when the frame is new) and the handle that [requestAnimationFrame]
    hands out. *)
Record Frame : Type := mkFrame {
  currentTime : number;
  hands : list (list Landmark.t);
  handle : nat
}.

(** The effects of one call: the refs afterwards, the signals passed to
    [onControls], and whether [requestAnimationFrame(processFrame)] ran. *)
Record Tick : Type := mkTick {
  after : Tracker;
  emitted : list HandControls;
  rescheduled : bool
}.

Inductive Outcome : Type :=
| Returned (t : Tick)
| TypeError (refs : Tracker).

(** The refs as [HandTracker] creates them. *)
Definition initial : Tracker :=
  {| handLandmarker := false;
     videoRef := false;
     rafRef := None;
     lastVideoTime := Fin (-1);
     lastPan := Vec2.mk 0 0;
     lastZoom := 1;
     baseWristPos := None;
     controlsRef := mkControls 1 0 0 false |}.

Definition with_time (s : Tracker) (now : number) : Tracker :=
  {| handLandmarker := handLandmarker s; videoRef := videoRef s;
     rafRef := rafRef s; lastVideoTime := now; lastPan := lastPan s;
     lastZoom := lastZoom s; baseWristPos := baseWristPos s;
     controlsRef := controlsRef s |}.

Definition with_raf (s : Tracker) (h : nat) : Tracker :=
  {| handLandmarker := handLandmarker s; videoRef := videoRef s;
     rafRef := Some h; lastVideoTime := lastVideoTime s; lastPan := lastPan s;
     lastZoom := lastZoom s; baseWristPos := baseWristPos s;
     controlsRef := controlsRef s |}.

(** The assignments of one processed frame, all at once. *)
Definition with_gesture (s : Tracker) (pan : Vec2.t) (z : number)
    (anchor : option Vec2.t) (c : HandControls) : Tracker :=
  {| handLandmarker := handLandmarker s; videoRef := videoRef s;
     rafRef := rafRef s; lastVideoTime := lastVideoTime s; lastPan := pan;
     lastZoom := z; baseWristPos := anchor; controlsRef := c |}.

(** The branch [hands.length >= 1] of [processFrame]. *)
Definition hand_branch (s : Tracker) (hand : list Landmark.t)
  : option (Tracker * HandControls) :=
  tension ← computeTension hand;
  wrist ← hand !! 0%nat;
  let isFistClosed := tension >? 0.7 in
  let base :=
    match baseWristPos s with
    | None => Vec2.mk (Landmark.x wrist) (Landmark.y wrist)
    | Some b => b
    end in
  let targetZoom := 0.5 + tension * 2.0 in
  let newZoom := lastZoom s * 0.7 + targetZoom * 0.3 in
  let controls_of (px py : number) :=
    mkControls (Math_min (Math_max newZoom 0.5) 2.5) px py false in
  if isFistClosed then
    let dx := (Landmark.x wrist - Vec2.x base) * 6.0 in
    let dy := - (Landmark.y wrist - Vec2.y base) * 6.0 in
    let pan := Vec2.mk (Vec2.x (lastPan s) * 0.6 + dx * 0.4)
                       (Vec2.y (lastPan s) * 0.6 + dy * 0.4) in
    let c := controls_of (MathUtils_clamp (Vec2.x pan) (Fin (-1)) 1)
                         (MathUtils_clamp (Vec2.y pan) (Fin (-1)) 1) in
    Some (with_gesture s pan newZoom (Some base) c, c)
  else
    let base' := Vec2.mk (Landmark.x wrist) (Landmark.y wrist) in
    let pan := Vec2.mk (Vec2.x (lastPan s) * 0.85) (Vec2.y (lastPan s) * 0.85) in
    let c := controls_of (Vec2.x pan) (Vec2.y pan) in
    Some (with_gesture s pan newZoom (Some base') c, c).

(** The branch of [processFrame] for a frame without a hand. *)
Definition no_hand_branch (s : Tracker) : Tracker * HandControls :=
  let pan := Vec2.mk (Vec2.x (lastPan s) * 0.9) (Vec2.y (lastPan s) * 0.9) in
  let c := mkControls (zoom (controlsRef s)) (Vec2.x pan) (Vec2.y pan) false in
  (with_gesture s pan (lastZoom s) None c, c).

Definition processFrame (s : Tracker) (f : Frame) : Outcome :=
  if negb (handLandmarker s) || negb (videoRef s) then
    Returned (mkTick s [] false)
  else if lastVideoTime s === currentTime f then
    Returned (mkTick (with_raf s (handle f)) [] true)
  else
    let s1 := with_time s (currentTime f) in
    match hands f with
    | hand :: _ =>
        match hand_branch s1 hand with
        | Some (s2, c) => Returned (mkTick (with_raf s2 (handle f)) [c] true)
        | None => TypeError s1
        end
    | [] =>
        let '(s2, c) := no_hand_branch s1 in
        Returned (mkTick (with_raf s2 (handle f)) [c] true)
    end.

(** The refs once [start] has the video playing and the detector created,
    at its call of [processFrame]. *)
Definition started : Tracker :=
  {| handLandmarker := true;
     videoRef := true;
     rafRef := None;
     lastVideoTime := Fin (-1);
     lastPan := Vec2.mk 0 0;
     lastZoom := 1;
     baseWristPos := None;
     controlsRef := mkControls 1 0 0 false |}.

(** The chain of callbacks: [processFrame] runs again on the next animation
    frame as long as it has requested it.  The result is the refs at the end
    and the signals passed to [onControls], oldest first. *)
Fixpoint run (s : Tracker) (frames : list Frame) : Tracker * list HandControls :=
  match frames with
  | [] => (s, [])
  | f :: rest =>
      match processFrame s f with
      | Returned t =>
          if rescheduled t then
            let '(s', out) := run (after t) rest in (s', emitted t ++ out)
          else (after t, emitted t)
      | TypeError s' => (s', [])
      end
  end.

End Gesture.

(* ===================================================================== *)
(** ** The geometry generator (geometryFactory.ts) *)
(* ===================================================================== *)

Module Geometry.

(** A computation that calls [Math.random()]: it reads the sequence of the
    draws from a cursor and returns the cursor behind its last draw. *)
Definition Sampler (A : Type) : Type := (nat -> R) -> nat -> A * nat.

#[export] Instance sampler_ret : MRet Sampler :=
  fun A a _ k => (a, k).
#[export] Instance sampler_bind : MBind Sampler :=
  fun A B f m draws k => let '(a, k') := m draws k in f a draws k'.

Definition Math_random : Sampler R :=
  fun draws k => (draws k, S k).

(** [Math.cbrt], the real cube root. *)
Definition Math_cbrt (v : R) : R :=
  if Rlt_dec 0 v then Rpower v (/ 3)
  else if Rlt_dec v 0 then - Rpower (- v) (/ 3)
  else 0.

(** The arrays [[x, y, z]] that the samplers return. *)
Definition Point : Type := (R * R * R)%type.

Definition rand (min max : R) : Sampler R :=
  r ← Math_random;
  mret (r * (max - min) + min).

Definition randomOnSphere (radius : R) : Sampler Point :=
  u ← Math_random;
  v ← Math_random;
  let theta := 2 * PI * u in
  let phi := acos (2 * v - 1) in
  let x := radius * sin phi * cos theta in
  let y := radius * sin phi * sin theta in
  let z := radius * cos phi in
  mret (x, y, z).

Definition randomInSphere (radius : R) : Sampler Point :=
  u ← Math_random;
  v ← Math_random;
  w ← Math_random;
  let r := radius * Math_cbrt u in
  let theta := 2 * PI * v in
  let phi := acos (2 * w - 1) in
  let x := r * sin phi * cos theta in
  let y := r * sin phi * sin theta in
  let z := r * cos phi in
  mret (x, y, z).

Definition heartPoint : Sampler Point :=
  t ← rand 0 PI;
  r ← rand 0.72 1;
  let x2d := 16 * sin t ^ 3 in
  let y2d := 13 * cos t - 5 * cos (2 * t) - 2 * cos (3 * t) - cos (4 * t) in
  let scale := 0.025 * r in
  depth ← rand (-0.35) 0.35;
  angle ← rand 0 (PI * 2);
  let x := x2d * scale * cos angle - depth * sin angle in
  let z := x2d * scale * sin angle + depth * cos angle in
  let y := y2d * scale in
  mret (x, y, z).

Definition phyllotaxisPoint (i total : nat) : Point :=
  let golden := PI * (3 - sqrt 5) in
  let radius := sqrt (INR i / INR total) * 1.25 in
  let theta := INR i * golden in
  let x := radius * cos theta in
  let z := radius * sin theta in
  let y := sin (radius * 1.3) * 0.35 in
  (x, y, z).

Definition saturnPoint (i total : nat) : Sampler Point :=
  let ringRatio := 0.45 in
  let useRing := Rlt_dec 0.4 (INR i / INR total) in
  if useRing then
    radius ← rand 1.4 2.1;
    angle ← rand 0 (PI * 2);
    thickness ← rand (-0.12) 0.12;
    let x := radius * cos angle in
    let z := radius * sin angle in
    mret (x, thickness, z)
  else randomOnSphere (1 - ringRatio).

Definition buddhaPoint : Sampler Point :=
  region ← Math_random;
  if Rlt_dec region 0.35 then
    '(x, y, z) ← randomOnSphere 0.55;
    mret (x, y + 1.1, z)
  else if Rlt_dec region 0.75 then
    '(x, y, z) ← randomInSphere 1;
    mret (x * 0.8, y * 0.9, z * 0.6)
  else
    angle ← rand 0 (PI * 2);
    r ← rand 0.9 1.2;
    tube ← rand (-0.22) 0.22;
    let x := (r + tube * cos angle) * cos angle in
    let z := (r + tube * sin angle) * sin angle in
    mret (x, tube - 1.05, z).

(** The [switch (type)] of [generateGeometry]; [type] is the string of the
    shape, and a string outside the six cases takes the [default]. *)
Definition samplePoint (type : string) (i count : nat) : Sampler Point :=
  if String.eqb type "sphere" then randomOnSphere 1.1
  else if String.eqb type "heart" then heartPoint
  else if String.eqb type "flower" then mret (phyllotaxisPoint i count)
  else if String.eqb type "saturn" then saturnPoint i count
  else if String.eqb type "buddha" then buddhaPoint
  else if String.eqb type "fireworks" then
    radius ← rand 1 1.8;
    randomInSphere radius
  else randomOnSphere 1.

(** The three stores of one iteration.  [positions] is a [Float32Array]: a
    store past its end is dropped, as by the list [insert]; the rounding of
    the stored value to single precision is left out. *)
Definition store (positions : list R) (i : nat) (point : Point) : list R :=
  let '(p0, p1, p2) := point in
  <[(i * 3 + 2)%nat := p2]> (<[(i * 3 + 1)%nat := p1]> (<[(i * 3)%nat := p0]> positions)).

(** The iterations [i = from, from + 1, ...] of the [for] loop, [todo] of
    them. *)
Fixpoint fill (type : string) (count : nat) (todo from : nat)
    (positions : list R) : Sampler (list R) :=
  match todo with
  | O => mret positions
  | S todo' =>
      point ← samplePoint type from count;
      fill type count todo' (S from) (store positions from point)
  end.

Definition generateGeometry (type : string) (count : nat) : Sampler (list R) :=
  let positions := replicate (count * 3) 0 in
  fill type count count 0%nat positions.

(** The triple of the point [i] in a buffer. *)
Definition triple (positions : list R) (i : nat) : option Point :=
  p0 ← positions !! (i * 3)%nat;
  p1 ← positions !! (i * 3 + 1)%nat;
  p2 ← positions !! (i * 3 + 2)%nat;
  Some (p0, p1, p2).

(** The Euclidean distance of a point from the origin. *)
Definition norm (p : Point) : R :=
  let '(x, y, z) := p in sqrt (x * x + y * y + z * z).

(** The distance of a point from the vertical axis. *)
Definition axis_distance (p : Point) : R :=
  let '(x, _, z) := p in sqrt (x * x + z * z).

End Geometry.

(* ===================================================================== *)
(** ** The vocabulary of the specification *)
(* ===================================================================== *)

Module Spec.

(** [clamp(v, lo, hi)] on the reals. *)
Definition clamp (v lo hi : R) : R := Rmin (Rmax v lo) hi.

(** A hand whose 21 landmarks have finite coordinates: landmark [i] is at
    [at_ i]. *)
Definition finite_landmark (p : R * R * R) : Landmark.t :=
  let '(a, b, c) := p in Landmark.mk (Fin a) (Fin b) (Fin c).

Definition finite_hand (at_ : nat -> R * R * R) : list Landmark.t :=
  map (fun i => finite_landmark (at_ i)) (seq 0 21).

(** The 3-D Euclidean distance. *)
Definition distance (p q : R * R * R) : R :=
  let '(px, py, pz) := p in
  let '(qx, qy, qz) := q in
  sqrt ((px - qx) * (px - qx) + (py - qy) * (py - qy) + (pz - qz) * (pz - qz)).

(** The average distance from the wrist (landmark 0) to the five fingertips
    (landmarks 4, 8, 12, 16, 20). *)
Definition avgTip (at_ : nat -> R * R * R) : R :=
  (distance (at_ 4%nat) (at_ 0%nat) + distance (at_ 8%nat) (at_ 0%nat)
   + distance (at_ 12%nat) (at_ 0%nat) + distance (at_ 16%nat) (at_ 0%nat)
   + distance (at_ 20%nat) (at_ 0%nat)) / 5.

(** The average distance from the wrist to the four finger bases
    (landmarks 5, 9, 13, 17). *)
Definition avgBase (at_ : nat -> R * R * R) : R :=
  (distance (at_ 5%nat) (at_ 0%nat) + distance (at_ 9%nat) (at_ 0%nat)
   + distance (at_ 13%nat) (at_ 0%nat) + distance (at_ 17%nat) (at_ 0%nat)) / 4.

(** The arithmetic that [computeTension] does on its two averages. *)
Definition tension_of (avgTip palmSize : number) : number :=
  let openRatio := (avgTip / (palmSize * 1.6))%js in
  let tension := (1 - Math_min (Math_max openRatio 0) 1)%js in
  Math_min (Math_max tension 0) 1.

(** Hands for the examples.  Every landmark at the origin; a fist whose wrist
    is at [(wx, 0.5, 0)], the finger bases 0.1 above it and every other
    landmark on the wrist; an open hand at the same place, the fingertips 0.4
    above the wrist. *)
Definition coincident_hand : nat -> R * R * R := fun _ => (0, 0, 0).

Definition fist_at (wx : R) : nat -> R * R * R :=
  fun i =>
    match i with
    | 5%nat | 9%nat | 13%nat | 17%nat => (wx, 0.6, 0)
    | _ => (wx, 0.5, 0)
    end.

Definition open_at (wx : R) : nat -> R * R * R :=
  fun i =>
    match i with
    | 0%nat => (wx, 0.5, 0)
    | 5%nat | 9%nat | 13%nat | 17%nat => (wx, 0.6, 0)
    | 4%nat | 8%nat | 12%nat | 16%nat | 20%nat => (wx, 0.9, 0)
    | _ => (wx, 0.7, 0)
    end.

(** Frames for the examples: a fist at [x = 0.2] at time 0, the fist moved to
    [x = 0.9] at time 1, the hand opened there at time 2; the hand of
    coincident landmarks at time 0; a frame without a hand at time 0, and the
    time 0 of the video met a second time. *)
Definition fist_frame : Gesture.Frame :=
  Gesture.mkFrame (Fin 0) [finite_hand (fist_at 0.2)] 1.

Definition moved_frame : Gesture.Frame :=
  Gesture.mkFrame (Fin 1) [finite_hand (fist_at 0.9)] 2.

Definition opened_frame : Gesture.Frame :=
  Gesture.mkFrame (Fin 2) [finite_hand (open_at 0.9)] 3.

Definition coincident_frame : Gesture.Frame :=
  Gesture.mkFrame (Fin 0) [finite_hand coincident_hand] 1.

Definition empty_frame : Gesture.Frame :=
  Gesture.mkFrame (Fin 0) [] 1.

Definition stale_frame : Gesture.Frame :=
  Gesture.mkFrame (Fin 0) [] 2.

(** The anchor against which a closed fist pans: the latched wrist position,
    and the wrist of the frame itself when none is latched. *)
Definition anchor (s : Gesture.Tracker) (wrist : Landmark.t) : Vec2.t :=
  match Gesture.baseWristPos s with
  | Some b => b
  | None => Vec2.mk (Landmark.x wrist) (Landmark.y wrist)
  end.

(** What the branch of a hand assigns and emits, by the tension and the
    wrist of the hand: with the fist closed, and with the hand open. *)
Definition closed_step (s : Gesture.Tracker) (tension : number) (wrist : Landmark.t)
  : Gesture.Tracker * HandControls :=
  let a := anchor s wrist in
  let newZoom := (Gesture.lastZoom s * 0.7 + (0.5 + tension * 2.0) * 0.3)%js in
  let dx := ((Landmark.x wrist - Vec2.x a) * 6.0)%js in
  let dy := (- (Landmark.y wrist - Vec2.y a) * 6.0)%js in
  let pan := Vec2.mk (Vec2.x (Gesture.lastPan s) * 0.6 + dx * 0.4)%js
                     (Vec2.y (Gesture.lastPan s) * 0.6 + dy * 0.4)%js in
  let c := mkControls (Math_min (Math_max newZoom 0.5) 2.5)
                      (Gesture.MathUtils_clamp (Vec2.x pan) (Fin (-1)) 1)
                      (Gesture.MathUtils_clamp (Vec2.y pan) (Fin (-1)) 1) false in
  (Gesture.with_gesture s pan newZoom (Some a) c, c).

Definition open_step (s : Gesture.Tracker) (tension : number) (wrist : Landmark.t)
  : Gesture.Tracker * HandControls :=
  let newZoom := (Gesture.lastZoom s * 0.7 + (0.5 + tension * 2.0) * 0.3)%js in
  let pan := Vec2.mk (Vec2.x (Gesture.lastPan s) * 0.85)%js
                     (Vec2.y (Gesture.lastPan s) * 0.85)%js in
  let c := mkControls (Math_min (Math_max newZoom 0.5) 2.5)
                      (Vec2.x pan) (Vec2.y pan) false in
  (Gesture.with_gesture s pan newZoom
     (Some (Vec2.mk (Landmark.x wrist) (Landmark.y wrist))) c, c).

(** A tracker whose pan is (0.5, -0.3), for the examples. *)
Definition panned : Gesture.Tracker :=
  Gesture.with_gesture Gesture.started (Vec2.mk 0.5 (-0.3)) 1 None
    (mkControls 1 0.5 (-0.3) false).

(** The magnitude of a pan, the Euclidean norm of its two components. *)
Definition magnitude (pan : Vec2.t) : number :=
  Math_sqrt (Vec2.x pan * Vec2.x pan + Vec2.y pan * Vec2.y pan)%js.

(** A frame that [processFrame] processes: the tracker is running and the
    time of the video is not the time of the last processed frame. *)
Definition processed (s : Gesture.Tracker) (f : Gesture.Frame) : Prop :=
  Gesture.handLandmarker s = true /\ Gesture.videoRef s = true
  /\ (Gesture.lastVideoTime s === Gesture.currentTime f)%js = false.

(** Consecutive frames, each at a new time of the video and without a hand;
    [last] is the time of the frame before the first. *)
Fixpoint no_hand_frames (last : number) (frames : list Gesture.Frame) : Prop :=
  match frames with
  | [] => True
  | f :: rest =>
      (last === Gesture.currentTime f)%js = false
      /\ Gesture.hands f = []
      /\ no_hand_frames (Gesture.currentTime f) rest
  end.

(** The number of the indices [i < total] for which [saturnPoint] samples the
    planet, that is for which [i / total > 0.4] is false. *)
Definition on_planet (i total : nat) : bool :=
  if Rlt_dec 0.4 (INR i / INR total) then false else true.

Definition planet_count (total : nat) : nat :=
  length (List.filter (fun i => on_planet i total) (seq 0 total)).

(** What [Math.random] promises of its draws. *)
Definition unit_draws (draws : nat -> R) : Prop :=
  forall n, 0 <= draws n < 1.

End Spec.

(* ===================================================================== *)
(** ** The scene renderer and the application shell *)
(* ===================================================================== *)

(** The part of [animate] of the scene renderer that consumes the signal of the
    hand tracker, and [createDotCloud]. *)
Module Scene.

Import Geometry.
Local Open Scope js_scope.

(** [THREE.MathUtils.lerp(x, y, t)] of three.js, which is
    [(1 - t) * x + t * y]. *)
Definition MathUtils_lerp (x y t : number) : number :=
  (1 - t) * x + t * y.

(** The arguments of [camera.position.set] and of [camera.lookAt]. *)
Record Camera : Type := mkCamera {
  position : number * number * number;
  lookAt : number * number * number
}.

(** "Apply hand controls" of [animate].  The fields of the signal are numbers,
    on which [?? 1] and [?? 0] do nothing.  [mode] is [modeRef.current].  A
    zoom of zero divides as the positive zero; the tracker emits none. *)
Definition placeCamera (mode : string) (controls : HandControls) : Camera :=
  let zoom := zoom controls in
  let panX := panX controls in
  let panY := panY controls in
  let baseDist : number := if String.eqb mode "solar" then 15 else 10 in
  let dist := Gesture.MathUtils_clamp (baseDist / zoom) 4 25 in
  let panRange : number := 6 in
  let baseY : number := if String.eqb mode "solar" then 4.5 else 4 in
  let targetX := panX * panRange in
  let targetY := baseY + panY * panRange in
  let targetZ := dist in
  mkCamera (targetX, targetY, targetZ) (targetX, baseY, Fin 0).

(** The [expansion] of the dots. *)
Definition expansion (controls : HandControls) : number :=
  Gesture.MathUtils_clamp ((zoom controls - 0.5) / 2.0) 0 1.

(** The two [Float32Array]s of the dot cloud.  [createDotCloud] hands its
    array [initialPositions] both to the attribute [position] of the geometry
    and to [userData.initialPositions], and three.js keeps the array it is
    given: [posAttr.array] and [initial] of [animate] are one array,
    [positions] here.  [targets] is [targetPositions]. *)
Record DotCloud : Type := mkDotCloud {
  positions : list number;
  targets : list number
}.

(** A read of a typed array; past the end it gives [undefined], which the
    arithmetic of [lerp] turns into NaN. *)
Definition read (array : list number) (i : nat) : number :=
  default NaN (array !! i).

(** The iterations [i = from, from + 1, ...] of the loop over the dots, [todo]
    of them.  Each store goes to the array that the next read of [initial]
    reads. *)
Fixpoint lerpDots (todo from : nat) (positions targets : list number)
    (expansion : number) : list number :=
  match todo with
  | O => positions
  | S todo' =>
      let ix := (from * 3)%nat in
      let p1 :=
        <[ix := MathUtils_lerp (read positions ix) (read targets ix) expansion]>
          positions in
      let p2 :=
        <[(ix + 1)%nat :=
            MathUtils_lerp (read p1 (ix + 1)) (read targets (ix + 1)) expansion]> p1 in
      let p3 :=
        <[(ix + 2)%nat :=
            MathUtils_lerp (read p2 (ix + 2)) (read targets (ix + 2)) expansion]> p2 in
      lerpDots todo' (S from) p3 targets expansion
  end.

(** "Animate dots" of [animate].  [posAttr.count] is the length of the array
    over the item size 3, and [i < posAttr.count] lets through the indices
    under it, also when it is not whole. *)
Definition animateDots (mode : string) (controls : HandControls) (cloud : DotCloud)
  : DotCloud :=
  if String.eqb mode "dots" then
    let expansion := expansion controls in
    let count := ((length (positions cloud) + 2) / 3)%nat in
    mkDotCloud (lerpDots count 0 (positions cloud) (targets cloud) expansion)
               (targets cloud)
  else cloud.

(** The stores of one iteration of [createDotCloud] into one of its arrays. *)
Definition store3 (array : list number) (i : nat) (p : R * R * R) : list number :=
  let '(p0, p1, p2) := p in
  <[(i * 3 + 2)%nat := Fin p2]>
    (<[(i * 3 + 1)%nat := Fin p1]> (<[(i * 3)%nat := Fin p0]> array)).

(** One iteration of the loop of [createDotCloud]: the point of the tight
    sphere and the point of the scattered fragments, in the order of their
    draws. *)
Definition dotPair (radius : R) : Geometry.Sampler ((R * R * R) * (R * R * R)) :=
  u ← Geometry.Math_random;
  v ← Geometry.Math_random;
  let theta := (2 * PI * u)%R in
  let phi := acos (2 * v - 1) in
  w ← Geometry.Math_random;
  let r := (radius * (0.8 + w * 0.2))%R in
  let initial :=
    (r * sin phi * cos theta, r * sin phi * sin theta, r * cos phi)%R in
  let spread := 8%R in
  a ← Geometry.Math_random;
  let rTarget := (spread * Geometry.Math_cbrt a)%R in
  b ← Geometry.Math_random;
  let thetaTarget := (b * PI * 2)%R in
  c ← Geometry.Math_random;
  let phiTarget := acos (c * 2 - 1) in
  let target :=
    (rTarget * sin phiTarget * cos thetaTarget,
     rTarget * sin phiTarget * sin thetaTarget,
     rTarget * cos phiTarget)%R in
  mret (initial, target).

Fixpoint fillDots (todo from : nat) (initialPositions targetPositions : list number)
  : Geometry.Sampler (list number * list number) :=
  match todo with
  | O => mret (initialPositions, targetPositions)
  | S todo' =>
      '(initial, target) ← dotPair 0.6;
      fillDots todo' (S from) (store3 initialPositions from initial)
               (store3 targetPositions from target)
  end.

(** [generateUUID] of three.js, which the constructors of [BufferGeometry],
    of a material and of an [Object3D] call for the [uuid] of the new
    object: four [Math.random()], none of which reaches the arrays. *)
Definition generateUUID : Geometry.Sampler unit :=
  _ ← Geometry.Math_random;
  _ ← Geometry.Math_random;
  _ ← Geometry.Math_random;
  _ ← Geometry.Math_random;
  mret tt.

(** [createDotCloud(count)], as far as the two arrays and the draws go:
    [new THREE.BufferGeometry()] before the loop, [new THREE.PointsMaterial]
    and [new THREE.Points] after it. *)
Definition createDotCloud (count : nat) : Geometry.Sampler DotCloud :=
  _ ← generateUUID;
  let initialPositions := replicate (count * 3) (Fin 0) in
  let targetPositions := replicate (count * 3) (Fin 0) in
  '(initialPositions, targetPositions) ←
    fillDots count 0 initialPositions targetPositions;
  _ ← generateUUID;
  _ ← generateUUID;
  mret (mkDotCloud initialPositions targetPositions).

(** The animation frames of the dots mode under the signals [signals], one
    frame per signal. *)
Definition animateAll (signals : list HandControls) (cloud : DotCloud) : DotCloud :=
  fold_left (fun c controls => animateDots "dots" controls c) signals cloud.

End Scene.

(** The zoom bar of [App]. *)
Module App.

Local Open Scope js_scope.

(** [initialControls] *)
Definition initialControls : HandControls := mkControls 0.6 0 0 false.

(** The percentage in the width of the zoom bar:
    [Math.min(Math.max((controls.zoom - 0.5) / 2, 0), 1) * 100]. *)
Definition zoomBar (controls : HandControls) : number :=
  Math_min (Math_max ((zoom controls - 0.5) / 2) 0) 1 * 100.

End App.

(** The inputs that the further properties speak of. *)
Module Inputs.

(** The magnitudes on which the real arithmetic of [JsNumber] stands for the
    arithmetic of the doubles up to rounding: no square of a difference of
    two coordinates overflows, and none of the sums that [computeTension]
    divides by underflows to zero.  A coordinate, a pan or an anchor is in
    range when its magnitude is at most [1e100]. *)
Definition coordinate_bound : R := 1e100.

Definition size_floor : R := 1e-100.

Definition in_range (r : R) : Prop :=
  (- coordinate_bound <= r <= coordinate_bound)%R.

Definition bounded_point (p : R * R * R) : Prop :=
  let '(x, y, z) := p in in_range x /\ in_range y /\ in_range z.

(** A hand of 21 landmarks in range whose finger bases are all on the wrist
    or on average at least [1e-100] away from it. *)
Definition bounded_hand (at_ : nat -> R * R * R) : Prop :=
  (forall i : nat, (i < 21)%nat -> bounded_point (at_ i))
  /\ (Spec.avgBase at_ = 0%R \/ (size_floor <= Spec.avgBase at_)%R).

(** A bounded hand that has a size: the finger bases, or else the
    fingertips, are on average at least [1e-100] away from the wrist. *)
Definition sized_hand (at_ : nat -> R * R * R) : Prop :=
  bounded_hand at_
  /\ ((size_floor <= Spec.avgBase at_)%R \/ (size_floor <= Spec.avgTip at_)%R).

(** The refs after the closed fist of [Spec.fist_frame] has been processed
    from [Gesture.started]: the anchor is latched at the wrist (0.2, 0.5). *)
Definition latched : Gesture.Tracker :=
  {| Gesture.handLandmarker := true;
     Gesture.videoRef := true;
     Gesture.rafRef := Some 1%nat;
     Gesture.lastVideoTime := Fin 0;
     Gesture.lastPan := Vec2.mk 0 0;
     Gesture.lastZoom := 1.45;
     Gesture.baseWristPos := Some (Vec2.mk 0.2 0.5);
     Gesture.controlsRef := mkControls 1.45 0 0 false |}.

(** A number of [lo, hi], or NaN. *)
Definition within_or_NaN (lo hi : R) (a : number) : Prop :=
  within lo hi a \/ a = NaN.

(** The first hand of the frame, if there is one, has 21 finite landmarks
    and is a sized hand. *)
Definition regular_frame (f : Gesture.Frame) : Prop :=
  forall hand rest,
    Gesture.hands f = hand :: rest ->
    exists at_ : nat -> R * R * R,
      hand = Spec.finite_hand at_ /\ sized_hand at_.

(** The wrist of the first hand of the frame, if there is one, is in the
    unit square of the normalized image. *)
Definition normalized_wrist (w : Landmark.t) : Prop :=
  within 0 1 (Landmark.x w) /\ within 0 1 (Landmark.y w).

Definition normalized_frame (f : Gesture.Frame) : Prop :=
  forall hand rest,
    Gesture.hands f = hand :: rest ->
    forall w, hand !! 0%nat = Some w -> normalized_wrist w.

(** The refs of two trackers agree but for the handle in [rafRef]. *)
Definition same_gesture (s s' : Gesture.Tracker) : Prop :=
  Gesture.handLandmarker s = Gesture.handLandmarker s'
  /\ Gesture.videoRef s = Gesture.videoRef s'
  /\ Gesture.lastVideoTime s = Gesture.lastVideoTime s'
  /\ Gesture.lastPan s = Gesture.lastPan s'
  /\ Gesture.lastZoom s = Gesture.lastZoom s'
  /\ Gesture.baseWristPos s = Gesture.baseWristPos s'
  /\ Gesture.controlsRef s = Gesture.controlsRef s'.

(** The blend [(1 - e) * p + e * t] of [lerp] on the reals, and a cloud of
    finite coordinates [ps] with the finite targets [ts]. *)
Definition blend (e p t : R) : R := ((1 - e) * p + e * t)%R.

Definition finite_cloud (ps ts : list R) : Scene.DotCloud :=
  Scene.mkDotCloud (Fin <$> ps) (Fin <$> ts).

(** The pan is a pair of reals of [-6, 6] and the anchor, when one is
    latched, is in the unit square. *)
Definition pan_bounded (s : Gesture.Tracker) : Prop :=
  within (-6) 6 (Vec2.x (Gesture.lastPan s))
  /\ within (-6) 6 (Vec2.y (Gesture.lastPan s))
  /\ forall b, Gesture.baseWristPos s = Some b ->
       within 0 1 (Vec2.x b) /\ within 0 1 (Vec2.y b).

(** The smoothed zoom and the zoom of the stored signal are in [0.5, 2.5]. *)
Definition zoom_bounded (s : Gesture.Tracker) : Prop :=
  within 0.5 2.5 (Gesture.lastZoom s)
  /\ within 0.5 2.5 (zoom (Gesture.controlsRef s)).

End Inputs.

(* ===================================================================== *)
(** ** Numbers: the finite cases *)
(* ===================================================================== *)

Section NumberFacts.

Local Open Scope js_scope.

Lemma div_finite (a b : R) : b <> 0%R -> Fin a / Fin b = Fin (a / b).
Proof.
  intros Hb. unfold div. destruct (Req_dec_T b 0) as [E | _]; [contradiction | reflexivity].
Qed.

Lemma div_by_zero (a b : R) : b = 0%R -> Fin a / Fin b = scale_inf true a.
Proof.
  intros Hb. unfold div. destruct (Req_dec_T b 0) as [_ | N]; [reflexivity | contradiction].
Qed.

Lemma scale_inf_pos (s : bool) (a : R) : (0 < a)%R -> scale_inf s a = inf_of s.
Proof.
  intros Ha. unfold scale_inf. destruct (Rlt_dec 0 a) as [_ | N]; [reflexivity | contradiction].
Qed.

Lemma scale_inf_zero (s : bool) (a : R) : a = 0%R -> scale_inf s a = NaN.
Proof.
  intros ->. unfold scale_inf.
  destruct (Rlt_dec 0 0) as [L | _]; [lra |].
  destruct (Rlt_dec 0 0) as [L | _]; [lra | reflexivity].
Qed.

Lemma sqrt_finite (a : R) : (0 <= a)%R -> Math_sqrt (Fin a) = Fin (sqrt a).
Proof.
  intros Ha. unfold Math_sqrt. destruct (Rlt_dec a 0) as [L | _]; [lra | reflexivity].
Qed.

Lemma gt_finite_true (a b : R) : (b < a)%R -> (Fin a >? Fin b) = true.
Proof.
  intros H. unfold gt. destruct (Rlt_dec b a) as [_ | N]; [reflexivity | contradiction].
Qed.

Lemma gt_finite_false (a b : R) : (a <= b)%R -> (Fin a >? Fin b) = false.
Proof.
  intros H. unfold gt. destruct (Rlt_dec b a) as [L | _]; [lra | reflexivity].
Qed.

Lemma gt_finite (t : number) (b r : R) :
  t = Fin r ->
  ((b < r)%R -> (t >? Fin b) = true) /\ ((r <= b)%R -> (t >? Fin b) = false).
Proof.
  intros ->. split; intros; [apply gt_finite_true | apply gt_finite_false]; assumption.
Qed.

Lemma strict_eq_finite_false (a b : R) : a <> b -> (Fin a === Fin b) = false.
Proof.
  intros H. unfold strict_eq. destruct (Req_dec_T a b) as [E | _]; [contradiction | reflexivity].
Qed.

Lemma strict_eq_finite_true (a : R) : (Fin a === Fin a) = true.
Proof.
  unfold strict_eq. destruct (Req_dec_T a a) as [_ | N]; [reflexivity | contradiction].
Qed.

(** The two clamps of the source agree with the clamp of the specification
    on the finite numbers. *)
Lemma min_max_finite (v lo hi : R) :
  Math_min (Math_max (Fin v) (Fin lo)) (Fin hi) = Fin (Spec.clamp v lo hi).
Proof. reflexivity. Qed.

Lemma clamp_bounds (v lo hi : R) : (lo <= hi)%R -> (lo <= Spec.clamp v lo hi <= hi)%R.
Proof.
  intros H. unfold Spec.clamp, Rmin, Rmax.
  destruct (Rle_dec v lo); destruct (Rle_dec _ hi); lra.
Qed.

Lemma MathUtils_clamp_finite (v lo hi : R) :
  (lo <= hi)%R ->
  Gesture.MathUtils_clamp (Fin v) (Fin lo) (Fin hi) = Fin (Spec.clamp v lo hi).
Proof.
  intros H. unfold Gesture.MathUtils_clamp, Spec.clamp. simpl. f_equal.
  unfold Rmin. destruct (Rle_dec hi v), (Rle_dec (Rmax v lo) hi) as [L | L];
    unfold Rmax in *; destruct (Rle_dec v lo); try destruct (Rle_dec lo hi);
    try destruct (Rle_dec lo v); lra.
Qed.

End NumberFacts.

(* ===================================================================== *)
(** ** The tension of a hand *)
(* ===================================================================== *)

Section Tension.

Local Open Scope js_scope.

Lemma squares_nonneg (a b c : R) : (0 <= a * a + b * b + c * c)%R.
Proof. nra. Qed.

Lemma distance_nonneg (p q : R * R * R) : (0 <= Spec.distance p q)%R.
Proof. destruct p as [[? ?] ?], q as [[? ?] ?]. apply sqrt_pos. Qed.

Lemma distance3d_finite (p q : R * R * R) :
  Gesture.distance3d (Spec.finite_landmark p) (Spec.finite_landmark q)
  = Fin (Spec.distance p q).
Proof.
  destruct p as [[px py] pz], q as [[qx qy] qz].
  unfold Gesture.distance3d, Spec.distance. simpl.
  apply sqrt_finite, squares_nonneg.
Qed.

Lemma avgTip_nonneg (at_ : nat -> R * R * R) : (0 <= Spec.avgTip at_)%R.
Proof.
  unfold Spec.avgTip.
  pose proof (distance_nonneg (at_ 4%nat) (at_ 0%nat)).
  pose proof (distance_nonneg (at_ 8%nat) (at_ 0%nat)).
  pose proof (distance_nonneg (at_ 12%nat) (at_ 0%nat)).
  pose proof (distance_nonneg (at_ 16%nat) (at_ 0%nat)).
  pose proof (distance_nonneg (at_ 20%nat) (at_ 0%nat)).
  lra.
Qed.

Lemma avgBase_nonneg (at_ : nat -> R * R * R) : (0 <= Spec.avgBase at_)%R.
Proof.
  unfold Spec.avgBase.
  pose proof (distance_nonneg (at_ 5%nat) (at_ 0%nat)).
  pose proof (distance_nonneg (at_ 9%nat) (at_ 0%nat)).
  pose proof (distance_nonneg (at_ 13%nat) (at_ 0%nat)).
  pose proof (distance_nonneg (at_ 17%nat) (at_ 0%nat)).
  lra.
Qed.

(** On a hand of finite landmarks [computeTension] raises no TypeError and
    computes on the two averages of the specification. *)
Lemma computeTension_finite (at_ : nat -> R * R * R) :
  Gesture.computeTension (Spec.finite_hand at_)
  = Some (Spec.tension_of (Fin (Spec.avgTip at_)) (Fin (Spec.avgBase at_))).
Proof.
  unfold Gesture.computeTension, Spec.finite_hand.
  cbn [seq map lookup list_lookup mbind option_bind Gesture.pick mapM fmap option_fmap
       option_map mret option_ret length].
  unfold Gesture.sum_distances. cbn [fold_left].
  rewrite !distance3d_finite. cbn [add].
  replace (INR 5) with 5%R by (simpl; lra).
  replace (INR 4) with 4%R by (simpl; lra).
  rewrite !div_finite by lra.
  unfold Spec.tension_of, Spec.avgTip, Spec.avgBase.
  rewrite !Rplus_0_l. reflexivity.
Qed.

Lemma tension_of_regular (tip base : R) :
  base <> 0%R ->
  Spec.tension_of (Fin tip) (Fin base)
  = Fin (Spec.clamp (1 - Spec.clamp (tip / (base * 1.6)) 0 1) 0 1).
Proof.
  intros Hb. unfold Spec.tension_of. cbn [mul].
  rewrite div_finite by lra. reflexivity.
Qed.

Lemma tension_of_flat_palm (tip : R) :
  (0 < tip)%R -> Spec.tension_of (Fin tip) (Fin 0) = Fin 0.
Proof.
  intros Ht. unfold Spec.tension_of. cbn [mul].
  rewrite div_by_zero by lra. rewrite scale_inf_pos by assumption.
  simpl. f_equal. unfold Rmin, Rmax.
  destruct (Rle_dec (1 - 1) 0); destruct (Rle_dec _ 1); lra.
Qed.

Lemma tension_of_coincident : Spec.tension_of (Fin 0) (Fin 0) = NaN.
Proof.
  unfold Spec.tension_of. cbn [mul].
  rewrite div_by_zero by lra. rewrite scale_inf_zero by reflexivity.
  reflexivity.
Qed.

Lemma clamp_low (v lo hi : R) : (v <= lo)%R -> (lo <= hi)%R -> Spec.clamp v lo hi = lo.
Proof.
  intros. unfold Spec.clamp, Rmin, Rmax.
  destruct (Rle_dec v lo); destruct (Rle_dec _ hi); lra.
Qed.

Lemma clamp_high (v lo hi : R) : (hi <= v)%R -> (lo <= hi)%R -> Spec.clamp v lo hi = hi.
Proof.
  intros. unfold Spec.clamp, Rmin, Rmax.
  destruct (Rle_dec v lo); destruct (Rle_dec _ hi); lra.
Qed.

Lemma clamp_inside (v lo hi : R) : (lo <= v <= hi)%R -> Spec.clamp v lo hi = v.
Proof.
  intros H. unfold Spec.clamp, Rmin, Rmax.
  destruct (Rle_dec v lo); destruct (Rle_dec _ hi); lra.
Qed.

(** The floor on the size of a hand keeps its two averages from being both
    zero. *)
Lemma sized_hand_averages (at_ : nat -> R * R * R) :
  Inputs.sized_hand at_ ->
  Spec.avgTip at_ <> 0%R \/ Spec.avgBase at_ <> 0%R.
Proof.
  unfold Inputs.sized_hand, Inputs.size_floor. intros [_ [H | H]]; [right | left]; lra.
Qed.

(** On a bounded hand no distance that [computeTension] takes overflows: the
    sum of the three squares is at most [1.2e201] and the distance at most
    [4e100]. *)
Lemma bounded_distance (p q : R * R * R) :
  Inputs.bounded_point p -> Inputs.bounded_point q ->
  (let '(px, py, pz) := p in
   let '(qx, qy, qz) := q in
   (px - qx) * (px - qx) + (py - qy) * (py - qy) + (pz - qz) * (pz - qz) <= 1.2e201)%R
  /\ (Spec.distance p q <= 4e100)%R.
Proof.
  destruct p as [[px py] pz], q as [[qx qy] qz].
  unfold Inputs.bounded_point, Inputs.in_range, Inputs.coordinate_bound, Spec.distance.
  intros (Hpx & Hpy & Hpz) (Hqx & Hqy & Hqz).
  assert (forall a b : R, - (1e100) <= a <= 1e100 -> - (1e100) <= b <= 1e100 ->
                          (a - b) * (a - b) <= 4e200)%R as Hsq by (intros; nra).
  pose proof (Hsq px qx Hpx Hqx). pose proof (Hsq py qy Hpy Hqy).
  pose proof (Hsq pz qz Hpz Hqz).
  split; [lra |].
  replace 4e100%R with (sqrt (4e100 * 4e100)) by (apply sqrt_square; lra).
  apply sqrt_le_1_alt. lra.
Qed.

(** C3, amended.  On a hand of 21 finite landmarks with coordinates of
    magnitude at most 1e100, whose finger bases are on average at least
    1e-100 away from the wrist (or all on the wrist, the fingertips then
    being on average at least 1e-100 away from it), the tension is a real of
    [0, 1]; it is [clamp(1 - clamp(avgTip / (avgBase * 1.6), 0, 1), 0, 1)]
    when [avgBase] is not zero; [avgTip = 0] gives 1 and
    [avgTip >= 1.6 * avgBase] gives 0. *)
Theorem computeTension_spec (at_ : nat -> R * R * R) :
  Inputs.sized_hand at_ ->
  exists t : R,
    Gesture.computeTension (Spec.finite_hand at_) = Some (Fin t)
    /\ (0 <= t <= 1)%R
    /\ (Spec.avgBase at_ <> 0%R ->
        t = Spec.clamp
              (1 - Spec.clamp (Spec.avgTip at_ / (Spec.avgBase at_ * 1.6)) 0 1) 0 1)
    /\ (Spec.avgTip at_ = 0%R -> t = 1%R)
    /\ (Spec.avgTip at_ >= 1.6 * Spec.avgBase at_ -> t = 0)%R.
Proof.
  intros Hsized. pose proof (sized_hand_averages at_ Hsized) as Hnz.
  rewrite computeTension_finite.
  pose proof (avgTip_nonneg at_) as Htip.
  pose proof (avgBase_nonneg at_) as Hbase.
  destruct (Req_dec_T (Spec.avgBase at_) 0) as [E | N].
  - (* a palm of size zero under fingertips away from the wrist *)
    assert (0 < Spec.avgTip at_)%R as Hpos by (destruct Hnz; [lra | contradiction]).
    exists 0%R. rewrite E, tension_of_flat_palm by assumption.
    repeat split; try lra; intros; try contradiction; lra.
  - exists (Spec.clamp
              (1 - Spec.clamp (Spec.avgTip at_ / (Spec.avgBase at_ * 1.6)) 0 1) 0 1).
    rewrite tension_of_regular by assumption.
    repeat split; try apply clamp_bounds; try lra.
    + intros E0. rewrite E0. unfold Rdiv. rewrite Rmult_0_l.
      rewrite (clamp_low 0 0 1) by lra. rewrite clamp_high by lra. reflexivity.
    + intros Hge.
      assert (1 <= Spec.avgTip at_ / (Spec.avgBase at_ * 1.6))%R as Hratio.
      { apply Rmult_le_reg_r with (Spec.avgBase at_ * 1.6)%R; [lra |].
        unfold Rdiv. rewrite Rmult_assoc, Rinv_l by lra. lra. }
      rewrite (clamp_high (Spec.avgTip at_ / _) 0 1) by lra. apply clamp_low; lra.
Qed.

Lemma distance_vertical (a b b' c : R) :
  Spec.distance (a, b, c) (a, b', c) = Rabs (b - b').
Proof.
  unfold Spec.distance.
  replace ((a - a) * (a - a) + (b - b') * (b - b') + (c - c) * (c - c))%R
    with (Rsqr (b - b')) by (unfold Rsqr; lra).
  apply sqrt_Rsqr_abs.
Qed.

Lemma fist_averages (wx : R) :
  Spec.avgTip (Spec.fist_at wx) = 0%R /\ Spec.avgBase (Spec.fist_at wx) = 0.1%R.
Proof.
  unfold Spec.avgTip, Spec.avgBase, Spec.fist_at. rewrite !distance_vertical.
  replace (0.5 - 0.5)%R with 0%R by lra. replace (0.6 - 0.5)%R with 0.1%R by lra.
  rewrite Rabs_R0, (Rabs_pos_eq 0.1) by lra. lra.
Qed.

Lemma open_averages (wx : R) :
  Spec.avgTip (Spec.open_at wx) = 0.4%R /\ Spec.avgBase (Spec.open_at wx) = 0.1%R.
Proof.
  unfold Spec.avgTip, Spec.avgBase, Spec.open_at. rewrite !distance_vertical.
  replace (0.9 - 0.5)%R with 0.4%R by lra. replace (0.6 - 0.5)%R with 0.1%R by lra.
  rewrite (Rabs_pos_eq 0.4), (Rabs_pos_eq 0.1) by lra. lra.
Qed.

(** The fist of the examples is a sized hand. *)
Lemma fist_sized (wx : R) :
  Inputs.in_range wx -> Inputs.sized_hand (Spec.fist_at wx).
Proof.
  intros Hwx. destruct (fist_averages wx) as [_ Hbase].
  assert (Inputs.size_floor <= Spec.avgBase (Spec.fist_at wx))%R as Hfloor
    by (rewrite Hbase; unfold Inputs.size_floor; lra).
  split; [split |]; [| right; exact Hfloor | left; exact Hfloor].
  assert (Inputs.bounded_point (wx, 0.6, 0) /\ Inputs.bounded_point (wx, 0.5, 0))%R
    as [Hbase_point Hwrist_point].
  { unfold Inputs.bounded_point, Inputs.in_range, Inputs.coordinate_bound in *.
    repeat split; lra. }
  intros i _. unfold Spec.fist_at.
  do 18 (destruct i as [| i]; [assumption |]). assumption.
Defined.

Lemma computeTension_spec_witness :
  exists t : R,
    Gesture.computeTension (Spec.finite_hand (Spec.fist_at 0.2)) = Some (Fin t)
    /\ (0 <= t <= 1)%R
    /\ (Spec.avgBase (Spec.fist_at 0.2) <> 0%R ->
        t = Spec.clamp
              (1 - Spec.clamp (Spec.avgTip (Spec.fist_at 0.2)
                               / (Spec.avgBase (Spec.fist_at 0.2) * 1.6)) 0 1) 0 1)
    /\ (Spec.avgTip (Spec.fist_at 0.2) = 0%R -> t = 1%R)
    /\ (Spec.avgTip (Spec.fist_at 0.2) >= 1.6 * Spec.avgBase (Spec.fist_at 0.2) -> t = 0)%R.
Proof.
  apply (computeTension_spec (Spec.fist_at 0.2)).
  apply fist_sized. unfold Inputs.in_range, Inputs.coordinate_bound. lra.
Defined.

Lemma coincident_averages :
  Spec.avgTip Spec.coincident_hand = 0%R /\ Spec.avgBase Spec.coincident_hand = 0%R.
Proof.
  unfold Spec.avgTip, Spec.avgBase, Spec.coincident_hand.
  rewrite !distance_vertical, Rminus_diag, Rabs_R0. lra.
Qed.

Lemma tension_coincident :
  Gesture.computeTension (Spec.finite_hand Spec.coincident_hand) = Some NaN.
Proof.
  destruct coincident_averages as [Htip Hbase].
  rewrite computeTension_finite, Htip, Hbase. f_equal. apply tension_of_coincident.
Qed.

(** C3 as stated fails on a hand whose landmarks coincide: [avgTip] is 0 and
    the tension is NaN, which is neither 1 nor a number of [0, 1]. *)
Lemma computeTension_coincident_hand :
  Spec.avgTip Spec.coincident_hand = 0%R
  /\ Gesture.computeTension (Spec.finite_hand Spec.coincident_hand) = Some NaN
  /\ ~ (exists t, Gesture.computeTension (Spec.finite_hand Spec.coincident_hand) = Some t
                  /\ within 0 1 t).
Proof.
  split; [exact (proj1 coincident_averages) |]. split; [exact tension_coincident |].
  intros (t & Ht & Hin). rewrite tension_coincident in Ht. injection Ht as <-. exact Hin.
Qed.

Lemma tension_fist (wx : R) :
  Gesture.computeTension (Spec.finite_hand (Spec.fist_at wx)) = Some (Fin 1).
Proof.
  destruct (fist_averages wx) as [Htip Hbase].
  rewrite computeTension_finite, Htip, Hbase, tension_of_regular by lra.
  do 2 f_equal. unfold Rdiv. rewrite Rmult_0_l.
  rewrite (clamp_low 0 0 1) by lra. apply clamp_high; lra.
Qed.

Lemma tension_open (wx : R) :
  Gesture.computeTension (Spec.finite_hand (Spec.open_at wx)) = Some (Fin 0).
Proof.
  destruct (open_averages wx) as [Htip Hbase].
  rewrite computeTension_finite, Htip, Hbase, tension_of_regular by lra.
  do 2 f_equal. rewrite (clamp_high (0.4 / _) 0 1) by lra. apply clamp_low; lra.
Qed.

End Tension.

(* ===================================================================== *)
(** ** One call of [processFrame] *)
(* ===================================================================== *)

Section Frames.

Local Open Scope js_scope.
Import Gesture.

(** A hand of 21 landmarks has all the landmarks that [computeTension]
    reads: no TypeError. *)
Lemma computeTension_total (hand : list Landmark.t) :
  length hand = 21%nat ->
  exists tension wrist,
    computeTension hand = Some tension /\ hand !! 0%nat = Some wrist.
Proof.
  intros Hlen.
  do 21 (destruct hand as [| ? hand]; [discriminate Hlen |]).
  eexists; eexists; split; reflexivity.
Qed.

Lemma hand_branch_eq (s : Tracker) (hand : list Landmark.t)
    (tension : number) (wrist : Landmark.t) :
  computeTension hand = Some tension ->
  hand !! 0%nat = Some wrist ->
  hand_branch s hand =
  Some (if tension >? 0.7 then Spec.closed_step s tension wrist
        else Spec.open_step s tension wrist).
Proof.
  intros Ht Hw. unfold hand_branch. rewrite Ht, Hw. cbn [mbind option_bind].
  unfold Spec.anchor. destruct (tension >? 0.7); reflexivity.
Qed.

Lemma processFrame_hand (s : Tracker) (f : Frame) (hand : list Landmark.t)
    (rest : list (list Landmark.t)) (s2 : Tracker) (c : HandControls) :
  Spec.processed s f ->
  hands f = hand :: rest ->
  hand_branch (with_time s (currentTime f)) hand = Some (s2, c) ->
  processFrame s f = Returned (mkTick (with_raf s2 (handle f)) [c] true).
Proof.
  intros (Hl & Hv & Hnew) Hh Hb. unfold processFrame.
  rewrite Hl, Hv, Hnew, Hh, Hb. reflexivity.
Qed.

Lemma processFrame_no_hand (s : Tracker) (f : Frame) :
  Spec.processed s f ->
  hands f = [] ->
  processFrame s f =
  Returned (mkTick (with_raf (no_hand_branch (with_time s (currentTime f))).1 (handle f))
                   [(no_hand_branch (with_time s (currentTime f))).2] true).
Proof.
  intros (Hl & Hv & Hnew) Hh. unfold processFrame.
  rewrite Hl, Hv, Hnew, Hh. reflexivity.
Qed.

Lemma computeTension_wrist (hand : list Landmark.t) (tension : number) :
  computeTension hand = Some tension ->
  exists wrist, hand !! 0%nat = Some wrist.
Proof.
  unfold computeTension. intros H.
  destruct (hand !! 0%nat) as [wrist |]; [exists wrist; reflexivity | discriminate H].
Qed.

(** C4, amended.  On a processed frame with a hand whose tension is a number
    (no NaN), the smoothed zoom being a number: the target zoom is
    [0.5 + tension * 2.0], the smoothed zoom becomes
    [smoothedZoom * 0.7 + targetZoom * 0.3], and the zoom of the one emitted
    signal is the new smoothed zoom clamped to [0.5, 2.5], a number of
    [0.5, 2.5]. *)
Theorem processFrame_zoom (s : Tracker) (f : Frame) (hand : list Landmark.t)
    (rest : list (list Landmark.t)) (tension smoothedZoom : R) :
  Spec.processed s f ->
  hands f = hand :: rest ->
  computeTension hand = Some (Fin tension) ->
  lastZoom s = Fin smoothedZoom ->
  exists t c,
    processFrame s f = Returned t
    /\ emitted t = [c]
    /\ (let targetZoom := (0.5 + tension * 2.0)%R in
        lastZoom (after t) = Fin (smoothedZoom * 0.7 + targetZoom * 0.3)
        /\ zoom c = Fin (Spec.clamp (smoothedZoom * 0.7 + targetZoom * 0.3) 0.5 2.5))
    /\ within 0.5 2.5 (zoom c).
Proof.
  intros Hp Hh Ht Hz.
  destruct (computeTension_wrist hand _ Ht) as (wrist & Hw).
  pose proof (hand_branch_eq (with_time s (currentTime f)) hand _ wrist Ht Hw) as Hb.
  destruct (Fin tension >? 0.7);
    (eexists _, _; split; [exact (processFrame_hand s f hand rest _ _ Hp Hh Hb) |];
     split; [reflexivity |];
     cbn [after emitted zoom lastZoom with_raf with_gesture with_time
          Spec.closed_step Spec.open_step];
     rewrite Hz; cbn [mul add]; rewrite min_max_finite;
     split; [split; reflexivity | apply clamp_bounds; lra]).
Qed.

Lemma fist_frame_processed : Spec.processed started Spec.fist_frame.
Proof.
  repeat split. apply strict_eq_finite_false. lra.
Defined.

Lemma processFrame_zoom_witness :
  exists t c,
    processFrame started Spec.fist_frame = Returned t
    /\ emitted t = [c]
    /\ (let targetZoom := (0.5 + 1 * 2.0)%R in
        lastZoom (after t) = Fin (1 * 0.7 + targetZoom * 0.3)
        /\ zoom c = Fin (Spec.clamp (1 * 0.7 + targetZoom * 0.3) 0.5 2.5))
    /\ within 0.5 2.5 (zoom c).
Proof.
  apply (processFrame_zoom started Spec.fist_frame
           (Spec.finite_hand (Spec.fist_at 0.2)) [] 1 1).
  - exact fist_frame_processed.
  - reflexivity.
  - exact (tension_fist 0.2).
  - reflexivity.
Defined.

(** C4 as stated fails on a detected hand whose 21 landmarks coincide: the
    tension is NaN, and so is the emitted zoom, which is no number of
    [0.5, 2.5]. *)
Lemma processFrame_zoom_coincident :
  Spec.processed started Spec.coincident_frame
  /\ hands Spec.coincident_frame = [Spec.finite_hand Spec.coincident_hand]
  /\ length (Spec.finite_hand Spec.coincident_hand) = 21%nat
  /\ exists (t : Tick) (c : HandControls),
       processFrame started Spec.coincident_frame = Returned t
       /\ emitted t = [c]
       /\ lastZoom (after t) = NaN
       /\ zoom c = NaN
       /\ ~ within 0.5 2.5 (zoom c).
Proof.
  assert (Spec.processed started Spec.coincident_frame) as Hp.
  { repeat split. apply strict_eq_finite_false. lra. }
  split; [exact Hp |]. split; [reflexivity |]. split; [reflexivity |].
  pose proof (hand_branch_eq (with_time started (currentTime Spec.coincident_frame))
                (Spec.finite_hand Spec.coincident_hand) NaN
                (Spec.finite_landmark (Spec.coincident_hand 0%nat))
                tension_coincident eq_refl) as Hb.
  cbn [gt] in Hb.
  eexists _, _. split.
  - exact (processFrame_hand started Spec.coincident_frame _ [] _ _ Hp eq_refl Hb).
  - split; [reflexivity |]. split; [reflexivity |]. split; [reflexivity |].
    intros H. exact H.
Qed.

Lemma MathUtils_clamp_within (v : number) :
  is_finite v -> within (-1) 1 (MathUtils_clamp v (Fin (-1)) 1).
Proof.
  intros Hv. destruct v as [r | | |]; try contradiction.
  rewrite MathUtils_clamp_finite by lra. apply clamp_bounds. lra.
Qed.

Lemma anchor_with_time (s : Tracker) (now : number) (wrist : Landmark.t) :
  Spec.anchor (with_time s now) wrist = Spec.anchor s wrist.
Proof. reflexivity. Qed.

(** C5.  On a processed frame with a hand of 21 landmarks: when the tension
    exceeds 0.7, the pan becomes [pan * 0.6 + delta * 0.4], where [delta] is
    the wrist minus the anchor on each axis, times 6.0, the Y axis negated,
    and the emitted [panX] and [panY] are the new pan clamped to [-1, 1];
    otherwise (in particular when the tension is at most 0.7) no delta is
    applied: the pan is only scaled by 0.85 and the anchor moves to the
    wrist.  On a pan, a wrist and an anchor that are reals in range, the new
    pan and the emitted signal are the reals that these formulas give. *)
Theorem processFrame_pan (s : Tracker) (f : Frame) (hand : list Landmark.t)
    (rest : list (list Landmark.t)) :
  Spec.processed s f ->
  hands f = hand :: rest ->
  length hand = 21%nat ->
  exists tension wrist t c,
    computeTension hand = Some tension
    /\ hand !! 0%nat = Some wrist
    /\ processFrame s f = Returned t
    /\ emitted t = [c]
    /\ ((tension >? 0.7) = true ->
        let a := Spec.anchor s wrist in
        let dx := (Landmark.x wrist - Vec2.x a) * 6.0 in
        let dy := - (Landmark.y wrist - Vec2.y a) * 6.0 in
        lastPan (after t) = Vec2.mk (Vec2.x (lastPan s) * 0.6 + dx * 0.4)
                                    (Vec2.y (lastPan s) * 0.6 + dy * 0.4)
        /\ baseWristPos (after t) = Some a
        /\ panX c = MathUtils_clamp (Vec2.x (lastPan (after t))) (Fin (-1)) 1
        /\ panY c = MathUtils_clamp (Vec2.y (lastPan (after t))) (Fin (-1)) 1
        /\ (is_finite (Vec2.x (lastPan (after t))) -> within (-1) 1 (panX c))
        /\ (is_finite (Vec2.y (lastPan (after t))) -> within (-1) 1 (panY c)))
    /\ ((tension >? 0.7) = false ->
        lastPan (after t) = Vec2.mk (Vec2.x (lastPan s) * 0.85)
                                    (Vec2.y (lastPan s) * 0.85)
        /\ baseWristPos (after t)
           = Some (Vec2.mk (Landmark.x wrist) (Landmark.y wrist))
        /\ panX c = Vec2.x (lastPan (after t))
        /\ panY c = Vec2.y (lastPan (after t)))
    /\ (forall r : R, tension = Fin r ->
          ((0.7 < r)%R -> (tension >? 0.7) = true)
          /\ ((r <= 0.7)%R -> (tension >? 0.7) = false))
    /\ (forall px py wx wy ax ay : R,
          lastPan s = Vec2.mk (Fin px) (Fin py) ->
          Landmark.x wrist = Fin wx ->
          Landmark.y wrist = Fin wy ->
          Spec.anchor s wrist = Vec2.mk (Fin ax) (Fin ay) ->
          Inputs.in_range px -> Inputs.in_range py ->
          Inputs.in_range wx -> Inputs.in_range wy ->
          Inputs.in_range ax -> Inputs.in_range ay ->
          ((tension >? 0.7) = true ->
           let deltaX := ((wx - ax) * 6.0)%R in
           let deltaY := (- (wy - ay) * 6.0)%R in
           lastPan (after t) = Vec2.mk (Fin (px * 0.6 + deltaX * 0.4))
                                       (Fin (py * 0.6 + deltaY * 0.4))
           /\ panX c = Fin (Spec.clamp (px * 0.6 + deltaX * 0.4) (-1) 1)
           /\ panY c = Fin (Spec.clamp (py * 0.6 + deltaY * 0.4) (-1) 1))
          /\ ((tension >? 0.7) = false ->
              lastPan (after t) = Vec2.mk (Fin (px * 0.85)) (Fin (py * 0.85))
              /\ panX c = Fin (px * 0.85)
              /\ panY c = Fin (py * 0.85))).
Proof.
  intros Hp Hh Hlen.
  destruct (computeTension_total hand Hlen) as (tension & wrist & Ht & Hw).
  pose proof (hand_branch_eq (with_time s (currentTime f)) hand tension wrist Ht Hw) as Hb.
  destruct (tension >? 0.7) eqn:E;
    (eexists tension, wrist, _, _; split; [exact Ht |]; split; [exact Hw |];
     split; [exact (processFrame_hand s f hand rest _ _ Hp Hh Hb) |];
     split; [reflexivity |]).
  - split; [| split; [intros E'; congruence | split; [apply gt_finite |]]].
    + intros _.
      cbn [after emitted panX panY lastPan baseWristPos with_raf with_gesture with_time].
      unfold Spec.anchor. cbn [baseWristPos with_time].
      repeat split; try reflexivity; cbn [Vec2.x Vec2.y]; apply MathUtils_clamp_within.
    + intros px py wx wy ax ay Hpan Hwx Hwy Ha _ _ _ _ _ _.
      split; [intros _ | intros E'; congruence].
      unfold Spec.closed_step. rewrite anchor_with_time, Ha.
      cbn [after emitted panX panY lastPan with_raf with_gesture with_time fst snd].
      rewrite Hpan, Hwx, Hwy. cbn [Vec2.x Vec2.y mul add sub neg].
      rewrite !MathUtils_clamp_finite by lra.
      split; [reflexivity | split; reflexivity].
  - split; [intros E'; congruence |]. split; [| split; [apply gt_finite |]].
    + intros _. repeat split; reflexivity.
    + intros px py wx wy ax ay Hpan Hwx Hwy Ha _ _ _ _ _ _.
      split; [intros E'; congruence | intros _].
      unfold Spec.open_step.
      cbn [after emitted panX panY lastPan with_raf with_gesture with_time fst snd].
      rewrite Hpan. cbn [Vec2.x Vec2.y mul].
      split; [reflexivity | split; reflexivity].
Qed.

Lemma latched_processed : Spec.processed Inputs.latched Spec.moved_frame.
Proof.
  repeat split. apply strict_eq_finite_false. lra.
Defined.

Lemma in_range_unit (r : R) : (-1 <= r <= 1)%R -> Inputs.in_range r.
Proof.
  unfold Inputs.in_range, Inputs.coordinate_bound. lra.
Defined.

Lemma processFrame_pan_witness :
  exists (t : Tick) (c : HandControls),
    processFrame Inputs.latched Spec.moved_frame = Returned t
    /\ emitted t = [c]
    /\ lastPan (after t) = Vec2.mk (Fin 1.68) (Fin 0)
    /\ panX c = Fin 1
    /\ panY c = Fin 0.
Proof.
  destruct (processFrame_pan Inputs.latched Spec.moved_frame
              (Spec.finite_hand (Spec.fist_at 0.9)) []
              latched_processed eq_refl eq_refl)
    as (tension & wrist & t & c & Ht & Hw & Hr & He & _ & _ & _ & Hreal).
  rewrite tension_fist in Ht. injection Ht as <-.
  injection Hw as <-.
  destruct (Hreal 0 0 0.9 0.5 0.2 0.5 eq_refl eq_refl eq_refl eq_refl)%R
    as [Hclosed _]; try (apply in_range_unit; lra).
  destruct (Hclosed (gt_finite_true 1 0.7 ltac:(lra))) as (Hpan & Hx & Hy).
  exists t, c. split; [exact Hr |]. split; [exact He |].
  rewrite Hpan, Hx, Hy.
  split; [f_equal; f_equal; lra |].
  split; f_equal; [apply clamp_high; lra | rewrite clamp_inside by lra; lra].
Defined.

(** C9.  When the time of the video is the time of the last processed frame,
    the call changes none of the anchor, the smoothed zoom, the pan, the
    time guard and the stored signal, passes no signal to the consumer, and
    requests the next animation frame. *)
Theorem processFrame_same_timestamp (s : Tracker) (f : Frame) :
  handLandmarker s = true ->
  videoRef s = true ->
  (lastVideoTime s === currentTime f) = true ->
  exists t,
    processFrame s f = Returned t
    /\ emitted t = []
    /\ rescheduled t = true
    /\ baseWristPos (after t) = baseWristPos s
    /\ lastZoom (after t) = lastZoom s
    /\ lastPan (after t) = lastPan s
    /\ lastVideoTime (after t) = lastVideoTime s
    /\ controlsRef (after t) = controlsRef s
    /\ rafRef (after t) = Some (handle f).
Proof.
  intros Hl Hv Hsame. unfold processFrame. rewrite Hl, Hv, Hsame.
  eexists. split; [reflexivity |]. repeat split; reflexivity.
Qed.

Lemma processFrame_same_timestamp_witness :
  exists t,
    processFrame (with_time started (Fin 0)) Spec.stale_frame = Returned t
    /\ emitted t = []
    /\ rescheduled t = true
    /\ baseWristPos (after t) = baseWristPos (with_time started (Fin 0))
    /\ lastZoom (after t) = lastZoom (with_time started (Fin 0))
    /\ lastPan (after t) = lastPan (with_time started (Fin 0))
    /\ lastVideoTime (after t) = lastVideoTime (with_time started (Fin 0))
    /\ controlsRef (after t) = controlsRef (with_time started (Fin 0))
    /\ rafRef (after t) = Some (handle Spec.stale_frame).
Proof.
  apply (processFrame_same_timestamp (with_time started (Fin 0)) Spec.stale_frame).
  - reflexivity.
  - reflexivity.
  - apply strict_eq_finite_true.
Defined.

(** C10.  On a processed frame without a hand the zoom of the emitted signal
    is the zoom of the signal stored by the frame before, and the smoothed
    zoom is unchanged; only the two pans are new.  And in every branch the
    [hasBothHands] of an emitted signal is false. *)
Theorem processFrame_no_hand_keeps_zoom :
  (forall (s : Tracker) (f : Frame),
     Spec.processed s f ->
     hands f = [] ->
     exists t c,
       processFrame s f = Returned t
       /\ emitted t = [c]
       /\ controlsRef (after t) = c
       /\ zoom c = zoom (controlsRef s)
       /\ lastZoom (after t) = lastZoom s
       /\ panX c = Vec2.x (lastPan (after t))
       /\ panY c = Vec2.y (lastPan (after t)))
  /\ (forall (s : Tracker) (f : Frame) (t : Tick) (c : HandControls),
        processFrame s f = Returned t ->
        In c (emitted t) ->
        hasBothHands c = false /\ controlsRef (after t) = c).
Proof.
  split.
  - intros s f Hp Hh. eexists _, _.
    split; [exact (processFrame_no_hand s f Hp Hh) |].
    repeat split; reflexivity.
  - intros s f t c. unfold processFrame.
    destruct (negb (handLandmarker s) || negb (videoRef s)); [intros [= <-] [] |].
    destruct (lastVideoTime s === currentTime f); [intros [= <-] [] |].
    destruct (hands f) as [| hand rest].
    + intros [= <-] [<- | []]. split; reflexivity.
    + destruct (hand_branch (with_time s (currentTime f)) hand) as [[s2 c2] |] eqn:Hb;
        [| discriminate].
      intros [= <-] [<- | []].
      unfold hand_branch in Hb.
      destruct (computeTension hand) as [tension |]; [| discriminate Hb].
      destruct (hand !! 0%nat) as [wrist |]; [| discriminate Hb].
      cbn [mbind option_bind] in Hb.
      destruct (tension >? 0.7); injection Hb as <- <-; split; reflexivity.
Qed.

Lemma empty_frame_processed : Spec.processed started Spec.empty_frame.
Proof.
  repeat split. apply strict_eq_finite_false. lra.
Defined.

Lemma processFrame_no_hand_keeps_zoom_witness :
  exists t c,
    processFrame started Spec.empty_frame = Returned t
    /\ emitted t = [c]
    /\ controlsRef (after t) = c
    /\ zoom c = zoom (controlsRef started)
    /\ lastZoom (after t) = lastZoom started
    /\ panX c = Vec2.x (lastPan (after t))
    /\ panY c = Vec2.y (lastPan (after t)).
Proof.
  apply (proj1 processFrame_no_hand_keeps_zoom started Spec.empty_frame).
  - exact empty_frame_processed.
  - reflexivity.
Defined.

End Frames.

(* ===================================================================== *)
(** ** Frames without a hand *)
(* ===================================================================== *)

Section Decay.

Local Open Scope js_scope.
Import Gesture.

Lemma magnitude_finite (a b : R) :
  Spec.magnitude (Vec2.mk (Fin a) (Fin b)) = Fin (sqrt (a * a + b * b)).
Proof.
  unfold Spec.magnitude. cbn [Vec2.x Vec2.y mul add]. apply sqrt_finite. nra.
Qed.

Lemma sqrt_scaled (a b q : R) :
  (0 <= q)%R ->
  sqrt (a * q * (a * q) + b * q * (b * q)) = (q * sqrt (a * a + b * b))%R.
Proof.
  intros Hq.
  replace (a * q * (a * q) + b * q * (b * q))%R with (q * q * (a * a + b * b))%R by ring.
  rewrite sqrt_mult by nra. rewrite sqrt_square by assumption. reflexivity.
Qed.

Lemma decay_nonneg (K : nat) : (0 < 0.9 ^ K)%R.
Proof. apply pow_lt. lra. Qed.

(** The refs at the end of a run of frames without a hand. *)
Lemma run_no_hand (frames : list Frame) :
  forall (s : Tracker) (px py : R),
    handLandmarker s = true ->
    videoRef s = true ->
    lastPan s = Vec2.mk (Fin px) (Fin py) ->
    Spec.no_hand_frames (lastVideoTime s) frames ->
    lastPan (run s frames).1
    = Vec2.mk (Fin (px * 0.9 ^ length frames)) (Fin (py * 0.9 ^ length frames))
    /\ lastZoom (run s frames).1 = lastZoom s
    /\ (frames <> [] -> baseWristPos (run s frames).1 = None).
Proof.
  induction frames as [| f rest IH]; intros s px py Hl Hv Hpan Hfr.
  - cbn [run fst length pow]. rewrite Hpan, !Rmult_1_r.
    repeat split. intros N. contradiction.
  - destruct Hfr as (Hnew & Hh & Hrest).
    cbn [run]. rewrite processFrame_no_hand by (repeat split; assumption).
    cbn [rescheduled after emitted].
    set (s1 := with_raf (no_hand_branch (with_time s (currentTime f))).1 (handle f)).
    specialize (IH s1 (px * 0.9)%R (py * 0.9)%R).
    destruct (run s1 rest) as [s' out] eqn:Hrun. cbn [fst] in *.
    destruct IH as (IHpan & IHzoom & IHanchor).
    + exact Hl.
    + exact Hv.
    + subst s1. cbn [lastPan with_raf no_hand_branch fst with_gesture with_time].
      rewrite Hpan. reflexivity.
    + exact Hrest.
    + rewrite IHpan, IHzoom. repeat split.
      * cbn [length pow]. f_equal; f_equal; ring.
      * intros _. destruct rest as [| f' rest'].
        -- cbn [run] in Hrun. injection Hrun as <- _. reflexivity.
        -- apply IHanchor. discriminate.
Qed.

(** C6, amended.  A processed frame without a hand clears the anchor and
    multiplies both pans by 0.9.  From a finite pan of magnitude [m], the
    magnitude after [K] such frames in a row is [0.9 ^ K * m]: it never
    grows, it decreases strictly from one frame to the next when [m] is not
    zero, and it tends to 0. *)
Theorem no_hand_frames_decay (s : Tracker) (px py : R) :
  handLandmarker s = true ->
  videoRef s = true ->
  lastPan s = Vec2.mk (Fin px) (Fin py) ->
  let m := sqrt (px * px + py * py) in
  (forall f : Frame,
     Spec.processed s f -> hands f = [] ->
     exists t,
       processFrame s f = Returned t
       /\ baseWristPos (after t) = None
       /\ lastPan (after t) = Vec2.mk (Vec2.x (lastPan s) * 0.9) (Vec2.y (lastPan s) * 0.9))
  /\ (forall frames : list Frame,
        Spec.no_hand_frames (lastVideoTime s) frames ->
        lastPan (run s frames).1
        = Vec2.mk (Fin (px * 0.9 ^ length frames)) (Fin (py * 0.9 ^ length frames))
        /\ Spec.magnitude (lastPan (run s frames).1) = Fin (0.9 ^ length frames * m))
  /\ (forall K : nat,
        (0.9 ^ S K * m <= 0.9 ^ K * m)%R
        /\ (m <> 0%R -> 0.9 ^ S K * m < 0.9 ^ K * m)%R)
  /\ (forall eps : R,
        (0 < eps)%R ->
        exists K0 : nat,
          forall frames : list Frame,
            (K0 <= length frames)%nat ->
            Spec.no_hand_frames (lastVideoTime s) frames ->
            exists r : R,
              Spec.magnitude (lastPan (run s frames).1) = Fin r /\ (0 <= r < eps)%R).
Proof.
  intros Hl Hv Hpan m.
  assert (0 <= m)%R as Hm by apply sqrt_pos.
  assert (forall frames : list Frame,
            Spec.no_hand_frames (lastVideoTime s) frames ->
            Spec.magnitude (lastPan (run s frames).1) = Fin (0.9 ^ length frames * m)) as Hmag.
  { intros frames Hfr.
    destruct (run_no_hand frames s px py Hl Hv Hpan Hfr) as (-> & _).
    rewrite magnitude_finite. f_equal. apply sqrt_scaled.
    pose proof (decay_nonneg (length frames)). lra. }
  split; [| split; [| split]].
  - intros f Hp Hh. eexists.
    split; [exact (processFrame_no_hand s f Hp Hh) |]. split; reflexivity.
  - intros frames Hfr. split; [| exact (Hmag frames Hfr)].
    exact (proj1 (run_no_hand frames s px py Hl Hv Hpan Hfr)).
  - intros K. pose proof (decay_nonneg K) as HK. cbn [pow]. split; [nra |].
    intros Hnz. assert (0 < m)%R by lra. nra.
  - intros eps Heps.
    destruct (pow_lt_1_zero 0.9) with (y := (eps / (m + 1))%R) as [K0 HK0].
    + rewrite Rabs_pos_eq; lra.
    + apply Rdiv_lt_0_compat; lra.
    + exists K0. intros frames Hlen Hfr. eexists. split; [exact (Hmag frames Hfr) |].
      pose proof (decay_nonneg (length frames)) as Hpos.
      specialize (HK0 (length frames) Hlen).
      rewrite Rabs_pos_eq in HK0 by lra.
      split; [nra |].
      apply Rle_lt_trans with (0.9 ^ length frames * (m + 1))%R; [nra |].
      apply Rmult_lt_reg_r with (/ (m + 1))%R; [apply Rinv_0_lt_compat; lra |].
      rewrite Rmult_assoc, Rinv_r by lra. unfold Rdiv in HK0. lra.
Qed.

Lemma no_hand_frames_decay_witness :
  let m := sqrt (0.5 * 0.5 + -0.3 * -0.3) in
  (forall f : Frame,
     Spec.processed Spec.panned f -> hands f = [] ->
     exists t,
       processFrame Spec.panned f = Returned t
       /\ baseWristPos (after t) = None
       /\ lastPan (after t)
          = Vec2.mk (Vec2.x (lastPan Spec.panned) * 0.9)
                    (Vec2.y (lastPan Spec.panned) * 0.9))
  /\ (forall frames : list Frame,
        Spec.no_hand_frames (lastVideoTime Spec.panned) frames ->
        lastPan (run Spec.panned frames).1
        = Vec2.mk (Fin (0.5 * 0.9 ^ length frames)) (Fin (-0.3 * 0.9 ^ length frames))
        /\ Spec.magnitude (lastPan (run Spec.panned frames).1)
           = Fin (0.9 ^ length frames * m))
  /\ (forall K : nat,
        (0.9 ^ S K * m <= 0.9 ^ K * m)%R
        /\ (m <> 0%R -> 0.9 ^ S K * m < 0.9 ^ K * m)%R)
  /\ (forall eps : R,
        (0 < eps)%R ->
        exists K0 : nat,
          forall frames : list Frame,
            (K0 <= length frames)%nat ->
            Spec.no_hand_frames (lastVideoTime Spec.panned) frames ->
            exists r : R,
              Spec.magnitude (lastPan (run Spec.panned frames).1) = Fin r
              /\ (0 <= r < eps)%R).
Proof.
  apply (no_hand_frames_decay Spec.panned 0.5 (-0.3)); reflexivity.
Defined.

(** C6 as stated fails on a tracker at rest: its pan is zero, and after a
    frame without a hand the magnitude of the pan is zero again, not
    smaller. *)
Lemma no_hand_frame_at_rest :
  Spec.no_hand_frames (lastVideoTime started) [Spec.empty_frame]
  /\ Spec.magnitude (lastPan started) = Fin 0
  /\ Spec.magnitude (lastPan (run started [Spec.empty_frame]).1) = Fin 0
  /\ (Spec.magnitude (lastPan started)
      >? Spec.magnitude (lastPan (run started [Spec.empty_frame]).1)) = false.
Proof.
  assert (Spec.no_hand_frames (lastVideoTime started) [Spec.empty_frame]) as Hfr.
  { repeat split. apply strict_eq_finite_false. lra. }
  assert (sqrt (0 * 0 + 0 * 0) = 0%R) as Hz.
  { replace (0 * 0 + 0 * 0)%R with 0%R by lra. apply sqrt_0. }
  assert (Spec.magnitude (lastPan started) = Fin 0) as Hbefore.
  { change (lastPan started) with (Vec2.mk (Fin 0) (Fin 0)).
    rewrite magnitude_finite, Hz. reflexivity. }
  assert (Spec.magnitude (lastPan (run started [Spec.empty_frame]).1) = Fin 0) as Hafter.
  { destruct (run_no_hand [Spec.empty_frame] started 0 0) as (-> & _);
      try reflexivity; try exact Hfr.
    rewrite magnitude_finite. f_equal. rewrite sqrt_scaled, Hz by (simpl; lra). lra. }
  repeat split; try assumption.
  - apply strict_eq_finite_false. lra.
  - rewrite Hbefore, Hafter. apply gt_finite_false. lra.
Qed.

End Decay.

(* ===================================================================== *)
(** ** The range of the emitted pan *)
(* ===================================================================== *)

Section Range.

Local Open Scope js_scope.
Import Gesture.

Lemma processFrame_finite_hand (s : Tracker) (f : Frame) (at_ : nat -> R * R * R)
    (tension : number) :
  Spec.processed s f ->
  hands f = [Spec.finite_hand at_] ->
  computeTension (Spec.finite_hand at_) = Some tension ->
  let s1 := with_time s (currentTime f) in
  let wrist := Spec.finite_landmark (at_ 0%nat) in
  let r := if tension >? 0.7 then Spec.closed_step s1 tension wrist
           else Spec.open_step s1 tension wrist in
  processFrame s f = Returned (mkTick (with_raf r.1 (handle f)) [r.2] true).
Proof.
  intros Hp Hh Ht. cbv zeta.
  apply (processFrame_hand s f (Spec.finite_hand at_) []); try assumption.
  rewrite (hand_branch_eq _ _ tension (Spec.finite_landmark (at_ 0%nat)) Ht eq_refl).
  destruct (tension >? 0.7); reflexivity.
Qed.

(** C1 fails on the code: panX leaves [-1, 1].  A closed fist at x = 0.2,
    then at x = 0.9, then the hand opened: the second frame emits the pan
    clamped to 1, the third the unclamped pan 1.68 scaled by 0.85. *)
Theorem pan_leaves_range :
  exists (s : Tracker) (c1 c2 c3 : HandControls),
    run started [Spec.fist_frame; Spec.moved_frame; Spec.opened_frame]
    = (s, [c1; c2; c3])
    /\ panX c2 = Fin 1
    /\ panX c3 = Fin 1.428
    /\ ~ within (-1) 1 (panX c3).
Proof.
  cbn [run].
  rewrite (processFrame_finite_hand started Spec.fist_frame (Spec.fist_at 0.2) (Fin 1)
             fist_frame_processed eq_refl (tension_fist 0.2)).
  cbv zeta. rewrite gt_finite_true by lra.
  cbn [rescheduled after emitted].
  set (s1 := with_raf _ (handle Spec.fist_frame)).
  assert (Spec.processed s1 Spec.moved_frame) as Hp1.
  { repeat split. apply strict_eq_finite_false. lra. }
  rewrite (processFrame_finite_hand s1 Spec.moved_frame (Spec.fist_at 0.9) (Fin 1)
             Hp1 eq_refl (tension_fist 0.9)).
  cbv zeta. rewrite gt_finite_true by lra.
  cbn [rescheduled after emitted].
  set (s2 := with_raf _ (handle Spec.moved_frame)).
  assert (Spec.processed s2 Spec.opened_frame) as Hp2.
  { repeat split. apply strict_eq_finite_false. lra. }
  rewrite (processFrame_finite_hand s2 Spec.opened_frame (Spec.open_at 0.9) (Fin 0)
             Hp2 eq_refl (tension_open 0.9)).
  cbv zeta. rewrite gt_finite_false by lra.
  cbn [rescheduled after emitted app].
  eexists _, _, _, _. split; [reflexivity |].
  subst s2 s1. cbn. repeat split.
  - f_equal. unfold Rmin. destruct (Rle_dec 1 _) as [L | L]; [| lra].
    unfold Rmax. destruct (Rle_dec (-1) 1); lra.
  - f_equal. lra.
  - intros [_ H]. lra.
Qed.

(** [Inputs.latched] is the tracker that the closed fist of
    [Spec.fist_frame] leaves behind. *)
Lemma run_fist_frame : (run started [Spec.fist_frame]).1 = Inputs.latched.
Proof.
  cbn [run].
  rewrite (processFrame_finite_hand started Spec.fist_frame (Spec.fist_at 0.2) (Fin 1)
             fist_frame_processed eq_refl (tension_fist 0.2)).
  cbv zeta. rewrite gt_finite_true by lra.
  cbn [rescheduled after emitted fst]. unfold Inputs.latched. cbn.
  assert (1 * 0.7 + (0.5 + 1 * 2.0) * 0.3 = 1.45)%R as -> by lra.
  assert (0 * 0.6 + (0.2 - 0.2) * 6.0 * 0.4 = 0)%R as -> by lra.
  assert (0 * 0.6 + - (0.5 - 0.5) * 6.0 * 0.4 = 0)%R as -> by lra.
  assert (Rmin (Rmax 1.45 0.5) 2.5 = 1.45)%R as ->
    by (apply (clamp_inside 1.45 0.5 2.5); lra).
  assert (Rmax (-1) (Rmin 1 0) = 0)%R as ->
    by (unfold Rmin, Rmax; destruct (Rle_dec 1 0); destruct (Rle_dec (-1) _); lra).
  reflexivity.
Qed.

(** The zoom has no guard against a tension that is NaN: on the hand of
    coincident landmarks the smoothed zoom and the emitted zoom are NaN. *)
Lemma coincident_frame_zoom :
  exists (t : Tick) (c : HandControls),
    processFrame started Spec.coincident_frame = Returned t
    /\ emitted t = [c]
    /\ lastZoom (after t) = NaN
    /\ zoom c = NaN.
Proof.
  assert (Spec.processed started Spec.coincident_frame) as Hp.
  { repeat split. apply strict_eq_finite_false. lra. }
  eexists _, _. split.
  - exact (processFrame_finite_hand started Spec.coincident_frame Spec.coincident_hand
             NaN Hp eq_refl tension_coincident).
  - repeat split.
Qed.

End Range.

(* ===================================================================== *)
(** ** The buffer of [generateGeometry] *)
(* ===================================================================== *)

(** Runs the binds of a sampler. *)
Ltac unfold_sampler :=
  unfold mbind, Geometry.sampler_bind, Geometry.Math_random, mret,
    Geometry.sampler_ret in *.

Section Buffer.

Import Geometry.

Lemma store_length (positions : list R) (i : nat) (p : Point) :
  length (store positions i p) = length positions.
Proof.
  destruct p as [[p0 p1] p2]. unfold store. rewrite !length_insert. reflexivity.
Qed.

Lemma store_triple_same (positions : list R) (i : nat) (p : Point) :
  (i * 3 + 2 < length positions)%nat ->
  triple (store positions i p) i = Some p.
Proof.
  intros Hi. destruct p as [[p0 p1] p2]. unfold triple, store.
  set (l0 := <[(i * 3)%nat := p0]> positions).
  set (l1 := <[(i * 3 + 1)%nat := p1]> l0).
  assert (length l0 = length positions) as H0 by apply length_insert.
  assert (length l1 = length positions) as H1
    by (unfold l1; rewrite length_insert; exact H0).
  assert (<[(i * 3 + 2)%nat := p2]> l1 !! (i * 3)%nat = Some p0) as ->.
  { rewrite list_lookup_insert_ne by lia. unfold l1.
    rewrite list_lookup_insert_ne by lia. apply list_lookup_insert_eq. lia. }
  assert (<[(i * 3 + 2)%nat := p2]> l1 !! (i * 3 + 1)%nat = Some p1) as ->.
  { rewrite list_lookup_insert_ne by lia. apply list_lookup_insert_eq. lia. }
  assert (<[(i * 3 + 2)%nat := p2]> l1 !! (i * 3 + 2)%nat = Some p2) as ->.
  { apply list_lookup_insert_eq. lia. }
  reflexivity.
Qed.

Lemma store_triple_other (positions : list R) (i j : nat) (p : Point) :
  i <> j ->
  triple (store positions i p) j = triple positions j.
Proof.
  intros Hij. destruct p as [[p0 p1] p2]. unfold triple, store.
  rewrite !list_lookup_insert_ne by lia. reflexivity.
Qed.

Lemma bind_run {A B : Type} (m : Sampler A) (f : A -> Sampler B)
    (draws : nat -> R) (k : nat) :
  (m ≫= f) draws k = let '(a, k') := m draws k in f a draws k'.
Proof. reflexivity. Qed.

Lemma fill_length (type : string) (count todo : nat) :
  forall (from : nat) (positions : list R) (draws : nat -> R) (k : nat),
    length (fill type count todo from positions draws k).1 = length positions.
Proof.
  induction todo as [| todo IH]; intros from positions draws k.
  - reflexivity.
  - cbn [fill]. rewrite bind_run.
    destruct (samplePoint type from count draws k) as [p k'].
    rewrite IH. apply store_length.
Qed.

(** The loop invariant: the iterations from [from] on leave the earlier
    triples alone, and iteration [i] stores the point it samples. *)
Lemma fill_triple (type : string) (count todo : nat) :
  forall (from : nat) (positions : list R) (draws : nat -> R) (k i : nat),
    ((from + todo) * 3 <= length positions)%nat ->
    ((i < from)%nat ->
     triple (fill type count todo from positions draws k).1 i = triple positions i)
    /\ ((from <= i < from + todo)%nat ->
        exists k' : nat,
          triple (fill type count todo from positions draws k).1 i
          = Some (samplePoint type i count draws k').1).
Proof.
  induction todo as [| todo IH]; intros from positions draws k i Hlen.
  - split; [reflexivity | lia].
  - cbn [fill]. rewrite bind_run.
    destruct (samplePoint type from count draws k) as [p k'] eqn:Hp.
    destruct (IH (S from) (store positions from p) draws k' i) as [Hbefore Hin].
    { rewrite store_length. lia. }
    split.
    + intros Hi. rewrite Hbefore by lia. apply store_triple_other. lia.
    + intros Hi. destruct (Nat.eq_dec i from) as [-> | Hne].
      * exists k. rewrite Hbefore by lia. rewrite store_triple_same by lia.
        rewrite Hp. reflexivity.
      * apply Hin. lia.
Qed.

Lemma generateGeometry_triple (type : string) (count : nat) (draws : nat -> R)
    (k i : nat) :
  (i < count)%nat ->
  exists k' : nat,
    triple (generateGeometry type count draws k).1 i
    = Some (samplePoint type i count draws k').1.
Proof.
  intros Hi. unfold generateGeometry.
  apply (fill_triple type count count 0 (replicate (count * 3) 0%R) draws k i).
  - rewrite length_replicate. lia.
  - lia.
Qed.

Lemma sphere_identity (r s1 c1 s2 c2 : R) :
  (s1 * s1 + c1 * c1 = 1 -> s2 * s2 + c2 * c2 = 1 ->
   r * s1 * c2 * (r * s1 * c2) + r * s1 * s2 * (r * s1 * s2) + r * c1 * (r * c1)
   = r * r)%R.
Proof.
  intros H1 H2.
  replace (r * s1 * c2 * (r * s1 * c2) + r * s1 * s2 * (r * s1 * s2) + r * c1 * (r * c1))%R
    with (r * r * (s1 * s1 * (s2 * s2 + c2 * c2) + c1 * c1))%R by ring.
  rewrite H2, Rmult_1_r, H1. ring.
Qed.

Lemma randomOnSphere_norm (radius : R) (draws : nat -> R) (k : nat) :
  (0 <= radius)%R -> norm (randomOnSphere radius draws k).1 = radius.
Proof.
  intros Hr.
  unfold randomOnSphere, norm. unfold_sampler.
  cbn [fst]. rewrite sphere_identity.
  - apply sqrt_square. assumption.
  - apply (sin2_cos2 (acos (2 * draws (S k) - 1))).
  - apply (sin2_cos2 (2 * PI * draws k)).
Qed.

(** C7.  For every shape and every count [generateGeometry] returns a buffer
    of [3 * count] numbers; for the shape "sphere" every triple of the buffer
    is at the distance 1.1 from the origin; so for 100 points of the sphere:
    300 numbers, every triple at the distance 1.1. *)
Theorem generateGeometry_buffer :
  (forall (type : string) (count : nat) (draws : nat -> R) (k : nat),
     length (generateGeometry type count draws k).1 = (3 * count)%nat)
  /\ (forall (count : nat) (draws : nat -> R) (k i : nat),
       (i < count)%nat ->
       exists p : Point,
         triple (generateGeometry "sphere" count draws k).1 i = Some p
         /\ norm p = 1.1)
  /\ (forall (draws : nat -> R) (k : nat),
       length (generateGeometry "sphere" 100 draws k).1 = 300%nat
       /\ forall i : nat,
           (i < 100)%nat ->
           exists p : Point,
             triple (generateGeometry "sphere" 100 draws k).1 i = Some p
             /\ norm p = 1.1).
Proof.
  assert (forall (type : string) (count : nat) (draws : nat -> R) (k : nat),
            length (generateGeometry type count draws k).1 = (3 * count)%nat) as Hlen.
  { intros. unfold generateGeometry. rewrite fill_length, length_replicate. lia. }
  assert (forall (count : nat) (draws : nat -> R) (k i : nat),
            (i < count)%nat ->
            exists p : Point,
              triple (generateGeometry "sphere" count draws k).1 i = Some p
              /\ norm p = 1.1) as Hsphere.
  { intros count draws k i Hi.
    destruct (generateGeometry_triple "sphere" count draws k i Hi) as [k' Hk'].
    eexists. split; [exact Hk' |].
    change (samplePoint "sphere" i count draws k') with (randomOnSphere 1.1 draws k').
    apply randomOnSphere_norm. lra. }
  split; [exact Hlen |]. split; [exact Hsphere |].
  intros draws k. split; [apply Hlen |]. intros i Hi. apply Hsphere, Hi.
Qed.

Lemma generateGeometry_buffer_witness :
  exists p : Point,
    triple (generateGeometry "sphere" 100 (fun _ => 0.5) 0%nat).1 7%nat = Some p
    /\ norm p = 1.1.
Proof.
  apply (proj1 (proj2 generateGeometry_buffer) 100%nat (fun _ => 0.5) 0%nat 7%nat).
  lia.
Defined.

End Buffer.

(* ===================================================================== *)
(** ** The flower *)
(* ===================================================================== *)

Section Flower.

Import Geometry.

Lemma circle_identity (r s c : R) :
  (s * s + c * c = 1 -> r * c * (r * c) + r * s * (r * s) = r * r)%R.
Proof.
  intros H.
  replace (r * c * (r * c) + r * s * (r * s))%R with (r * r * (s * s + c * c))%R by ring.
  rewrite H. ring.
Qed.

Lemma index_fraction_nonneg (i N : nat) : (0 <= INR i / INR N)%R.
Proof.
  destruct N as [| N].
  - simpl. unfold Rdiv. rewrite Rinv_0. lra.
  - apply Rmult_le_pos; [apply pos_INR |].
    apply Rlt_le, Rinv_0_lt_compat, lt_0_INR. lia.
Qed.

Lemma phyllotaxis_axis_distance (i N : nat) :
  axis_distance (phyllotaxisPoint i N) = (sqrt (INR i / INR N) * 1.25)%R.
Proof.
  unfold axis_distance, phyllotaxisPoint.
  rewrite circle_identity by apply (sin2_cos2 (INR i * (PI * (3 - sqrt 5)))).
  apply sqrt_square.
  pose proof (sqrt_pos (INR i / INR N)). lra.
Qed.

(** C8.  For the shape "flower" with [N] points the point [i] is computed
    without a draw; its distance from the vertical axis is
    [sqrt(i / N) * 1.25], which increases strictly from an index to the
    next, and its y is the ripple [sin(radius * 1.3) * 0.35]. *)
Theorem flower_point (N i : nat) :
  (i < N)%nat ->
  (forall (draws : nat -> R) (k : nat),
     samplePoint "flower" i N draws k = (phyllotaxisPoint i N, k))
  /\ (forall (draws : nat -> R) (k : nat),
       triple (generateGeometry "flower" N draws k).1 i = Some (phyllotaxisPoint i N))
  /\ axis_distance (phyllotaxisPoint i N) = (sqrt (INR i / INR N) * 1.25)%R
  /\ (phyllotaxisPoint i N).1.2 = (sin (sqrt (INR i / INR N) * 1.25 * 1.3) * 0.35)%R
  /\ ((S i < N)%nat ->
      (axis_distance (phyllotaxisPoint i N)
       < axis_distance (phyllotaxisPoint (S i) N))%R).
Proof.
  intros Hi. split; [reflexivity |]. split; [| split; [| split]].
  - intros draws k.
    destruct (generateGeometry_triple "flower" N draws k i Hi) as [k' ->].
    reflexivity.
  - apply phyllotaxis_axis_distance.
  - reflexivity.
  - intros _. rewrite !phyllotaxis_axis_distance.
    assert (0 < INR N)%R as HN by (apply lt_0_INR; lia).
    assert (INR i / INR N < INR (S i) / INR N)%R as Hlt.
    { rewrite S_INR. apply Rmult_lt_compat_r; [apply Rinv_0_lt_compat; exact HN | lra]. }
    pose proof (index_fraction_nonneg i N) as H0.
    assert (sqrt (INR i / INR N) < sqrt (INR (S i) / INR N))%R.
    { apply sqrt_lt_1_alt. lra. }
    lra.
Qed.

Lemma flower_point_witness :
  (forall (draws : nat -> R) (k : nat),
     samplePoint "flower" 3 10 draws k = (phyllotaxisPoint 3 10, k))
  /\ (forall (draws : nat -> R) (k : nat),
       triple (generateGeometry "flower" 10 draws k).1 3%nat
       = Some (phyllotaxisPoint 3 10))
  /\ axis_distance (phyllotaxisPoint 3 10) = (sqrt (INR 3 / INR 10) * 1.25)%R
  /\ (phyllotaxisPoint 3 10).1.2 = (sin (sqrt (INR 3 / INR 10) * 1.25 * 1.3) * 0.35)%R
  /\ ((4 < 10)%nat ->
      (axis_distance (phyllotaxisPoint 3 10)
       < axis_distance (phyllotaxisPoint 4 10))%R).
Proof.
  apply (flower_point 10 3). lia.
Defined.

End Flower.

(* ===================================================================== *)
(** ** Saturn *)
(* ===================================================================== *)

Section Saturn.

Import Geometry.

(** The test [i / total > 0.4] on the integers. *)
Lemma on_planet_iff (i N : nat) :
  (0 < N)%nat -> (Spec.on_planet i N = true <-> (5 * i <= 2 * N)%nat).
Proof.
  intros HN. unfold Spec.on_planet.
  assert (0 < INR N)%R as HR by (apply lt_0_INR; exact HN).
  assert (INR i / INR N * INR N = INR i)%R as Hfrac
    by (unfold Rdiv; rewrite Rmult_assoc, Rinv_l by lra; ring).
  destruct (Rlt_dec 0.4 (INR i / INR N)) as [L | L]; split; intros H.
  - discriminate H.
  - exfalso. apply le_INR in H. rewrite !mult_INR in H. simpl in H. nra.
  - destruct (Nat.le_gt_cases (5 * i) (2 * N)) as [Hle | Hgt]; [exact Hle |].
    exfalso. apply L. apply lt_INR in Hgt. rewrite !mult_INR in Hgt. simpl in Hgt.
    apply Rmult_lt_reg_r with (INR N); [exact HR |]. rewrite Hfrac. lra.
  - reflexivity.
Qed.

Lemma count_below (c n : nat) :
  length (List.filter (fun i => 5 * i <=? c) (seq 0 n)) = Nat.min n (c / 5 + 1).
Proof.
  induction n as [| n IH].
  - reflexivity.
  - rewrite seq_S, List.filter_app, length_app, IH. cbn [List.filter Nat.add].
    pose proof (Nat.div_mod_eq c 5) as Hdiv.
    pose proof (Nat.mod_upper_bound c 5 ltac:(lia)) as Hmod.
    destruct (5 * n <=? c) eqn:E; cbn [length].
    + apply Nat.leb_le in E. lia.
    + apply Nat.leb_gt in E. lia.
Qed.

Lemma planet_count_eq (N : nat) :
  (0 < N)%nat -> Spec.planet_count N = (2 * N / 5 + 1)%nat.
Proof.
  intros HN. unfold Spec.planet_count.
  rewrite (List.filter_ext_in (fun i => Spec.on_planet i N) (fun i => 5 * i <=? 2 * N)).
  - rewrite count_below.
    pose proof (Nat.div_mod_eq (2 * N) 5). pose proof (Nat.mod_upper_bound (2 * N) 5).
    lia.
  - intros i _. destruct (5 * i <=? 2 * N) eqn:E.
    + apply on_planet_iff; [exact HN | apply Nat.leb_le, E].
    + apply Nat.leb_gt in E. destruct (Spec.on_planet i N) eqn:P; [| reflexivity].
      apply on_planet_iff in P; [lia | exact HN].
Qed.

Lemma rand_bounds (lo hi : R) (draws : nat -> R) (k : nat) :
  Spec.unit_draws draws -> (lo < hi)%R ->
  (lo <= (rand lo hi draws k).1 < hi)%R /\ (rand lo hi draws k).2 = S k.
Proof.
  intros Hd Hlt. specialize (Hd k).
  unfold rand. unfold_sampler. cbn [fst snd].
  split; [nra | reflexivity].
Qed.

(** C2, amended.  For the shape "saturn" with [N] points, the points of the
    indices with [i / N <= 0.4], which are [2 * N / 5 + 1] of the [N], about
    40%, come from the sphere of radius 0.55; the other points come from the
    flat ring: a thickness in [-0.12, 0.12) and a distance from the axis in
    [1.4, 2.1). *)
Theorem saturn_split (N : nat) (draws : nat -> R) :
  Spec.unit_draws draws ->
  (0 < N)%nat ->
  (forall i k : nat,
     Spec.on_planet i N = true ->
     saturnPoint i N draws k = randomOnSphere 0.55 draws k
     /\ norm (saturnPoint i N draws k).1 = 0.55)
  /\ (forall i k : nat,
       Spec.on_planet i N = false ->
       (-0.12 <= (saturnPoint i N draws k).1.1.2 < 0.12)%R
       /\ (1.4 <= axis_distance (saturnPoint i N draws k).1 < 2.1)%R)
  /\ (forall i : nat, Spec.on_planet i N = true <-> (5 * i <= 2 * N)%nat)
  /\ Spec.planet_count N = (2 * N / 5 + 1)%nat
  /\ (2 * N < 5 * Spec.planet_count N <= 2 * N + 5)%nat.
Proof.
  intros Hd HN.
  assert ((1 - 0.45)%R = 0.55%R) as Hradius by lra.
  split; [| split; [| split; [| split]]].
  - intros i k Hp. unfold saturnPoint. fold (Spec.on_planet i N).
    unfold Spec.on_planet in Hp.
    destruct (Rlt_dec 0.4 (INR i / INR N)); [discriminate Hp |].
    rewrite Hradius. split; [reflexivity |]. apply randomOnSphere_norm. lra.
  - intros i k Hp. unfold saturnPoint. unfold Spec.on_planet in Hp.
    destruct (Rlt_dec 0.4 (INR i / INR N)); [| discriminate Hp].
    destruct (rand_bounds 1.4 2.1 draws k Hd ltac:(lra)) as [Hr Hk1].
    destruct (rand_bounds (-0.12) 0.12 draws (S (S k)) Hd ltac:(lra)) as [Ht _].
    rewrite !bind_run.
    destruct (rand 1.4 2.1 draws k) as [radius k1]. cbn [fst snd] in Hr, Hk1. subst k1.
    rewrite bind_run.
    destruct (rand 0 (PI * 2) draws (S k)) as [angle k2] eqn:Ha.
    assert (k2 = S (S k)) as -> by (unfold rand in Ha; unfold_sampler; congruence).
    rewrite bind_run.
    destruct (rand (-0.12) 0.12 draws (S (S k))) as [thickness k3]. cbn [fst] in Ht.
    unfold mret, sampler_ret, axis_distance. cbn [fst snd].
    split; [exact Ht |].
    rewrite circle_identity by apply sin2_cos2.
    rewrite sqrt_square by lra. exact Hr.
  - intros i. apply on_planet_iff, HN.
  - apply planet_count_eq, HN.
  - rewrite planet_count_eq by exact HN.
    pose proof (Nat.div_mod_eq (2 * N) 5). pose proof (Nat.mod_upper_bound (2 * N) 5).
    lia.
Qed.

Lemma half_draws : Spec.unit_draws (fun _ => 0.5).
Proof. intros n. lra. Defined.

Lemma saturn_split_witness :
  (forall i k : nat,
     Spec.on_planet i 100 = true ->
     saturnPoint i 100 (fun _ => 0.5) k = randomOnSphere 0.55 (fun _ => 0.5) k
     /\ norm (saturnPoint i 100 (fun _ => 0.5) k).1 = 0.55)
  /\ (forall i k : nat,
       Spec.on_planet i 100 = false ->
       (-0.12 <= (saturnPoint i 100 (fun _ => 0.5) k).1.1.2 < 0.12)%R
       /\ (1.4 <= axis_distance (saturnPoint i 100 (fun _ => 0.5) k).1 < 2.1)%R)
  /\ (forall i : nat, Spec.on_planet i 100 = true <-> (5 * i <= 2 * 100)%nat)
  /\ Spec.planet_count 100 = (2 * 100 / 5 + 1)%nat
  /\ (2 * 100 < 5 * Spec.planet_count 100 <= 2 * 100 + 5)%nat.
Proof.
  apply (saturn_split 100 (fun _ => 0.5)).
  - exact half_draws.
  - lia.
Defined.

(** C2 as stated fails for 100 points: 41 of them, not about 60, come from
    the sphere, and the point of index 50, whose index fraction 0.5 is under
    0.6, comes from the ring. *)
Lemma saturn_hundred_points :
  Spec.planet_count 100 = 41%nat
  /\ Spec.on_planet 50 100 = false
  /\ norm (saturnPoint 50 100 (fun _ => 0.5) 0%nat).1 <> 0.55.
Proof.
  split; [| split].
  - rewrite planet_count_eq by lia. reflexivity.
  - destruct (Spec.on_planet 50 100) eqn:P; [| reflexivity].
    apply on_planet_iff in P; lia.
  - assert (Spec.on_planet 50 100 = false) as P.
    { destruct (Spec.on_planet 50 100) eqn:P; [| reflexivity].
      apply on_planet_iff in P; lia. }
    unfold saturnPoint. unfold Spec.on_planet in P.
    destruct (Rlt_dec 0.4 (INR 50 / INR 100)) as [L | L]; [| discriminate P].
    unfold rand, norm. unfold_sampler.
    cbn [fst].
    set (a := (0.5 * (PI * 2 - 0) + 0)%R).
    set (r := (0.5 * (2.1 - 1.4) + 1.4)%R).
    set (y := (0.5 * (0.12 - -0.12) + -0.12)%R).
    replace (r * cos a * (r * cos a) + y * y + r * sin a * (r * sin a))%R
      with (r * r + y * y)%R
      by (pose proof (sin2_cos2 a) as H; unfold Rsqr in H;
          replace (r * cos a * (r * cos a) + y * y + r * sin a * (r * sin a))%R
            with (r * r * (sin a * sin a + cos a * cos a) + y * y)%R by ring;
          rewrite H; ring).
    intros H.
    assert (1 < sqrt (r * r + y * y))%R; [| lra].
    rewrite <- sqrt_1. apply sqrt_lt_1_alt. subst r y. nra.
Qed.

End Saturn.

(* ===================================================================== *)
(** ** Further properties of the tension *)
(* ===================================================================== *)

Section TensionMore.

Local Open Scope js_scope.
Import Gesture.

Lemma computeTension_short (hand : list Landmark.t) :
  (length hand < 21)%nat -> computeTension hand = None.
Proof.
  intros Hlt.
  do 21 (destruct hand as [| ? hand]; [reflexivity |]).
  cbn [length] in Hlt. lia.
Qed.

(** A hand with fewer than 21 landmarks, and only such a hand, makes
    [computeTension] raise its TypeError. *)
Theorem computeTension_TypeError (hand : list Landmark.t) :
  computeTension hand = None <-> (length hand < 21)%nat.
Proof.
  split.
  - intros Hnone.
    destruct (Nat.lt_ge_cases (length hand) 21) as [Hlt | Hge]; [exact Hlt |].
    exfalso.
    do 21 (destruct hand as [| ? hand]; [cbn [length] in Hge; lia |]).
    discriminate Hnone.
  - apply computeTension_short.
Qed.

Lemma square_of_difference (a b : number) :
  (a - b) * (a - b) = (b - a) * (b - a).
Proof.
  destruct a as [x | | |], b as [y | | |]; try reflexivity.
  cbn [sub mul]. f_equal. ring.
Qed.

(** [distance3d] does not depend on the order of its two landmarks, whatever
    their coordinates, the infinities and NaN included. *)
Theorem distance3d_symmetric (a b : Landmark.t) :
  distance3d a b = distance3d b a.
Proof.
  unfold distance3d. cbv zeta.
  rewrite (square_of_difference (Landmark.x a) (Landmark.x b)).
  rewrite (square_of_difference (Landmark.y a) (Landmark.y b)).
  rewrite (square_of_difference (or_zero (Landmark.z a)) (or_zero (Landmark.z b))).
  reflexivity.
Qed.

Lemma tension_of_gate (at_ : nat -> R * R * R) :
  (Spec.tension_of (Fin (Spec.avgTip at_)) (Fin (Spec.avgBase at_)) >? 0.7) = true
  <-> (Spec.avgTip at_ < 0.48 * Spec.avgBase at_)%R.
Proof.
  pose proof (avgTip_nonneg at_) as Htip. pose proof (avgBase_nonneg at_) as Hbase.
  destruct (Req_dec_T (Spec.avgBase at_) 0) as [E | N].
  - rewrite E. destruct (Req_dec_T (Spec.avgTip at_) 0) as [E' | N'].
    + rewrite E', tension_of_coincident. split; [discriminate | lra].
    + rewrite tension_of_flat_palm by lra. rewrite gt_finite_false by lra.
      split; [discriminate | lra].
  - rewrite tension_of_regular by exact N.
    set (ratio := (Spec.avgTip at_ / (Spec.avgBase at_ * 1.6))%R).
    assert (ratio * (Spec.avgBase at_ * 1.6) = Spec.avgTip at_)%R as Hratio
      by (unfold ratio; field; lra).
    assert (0 <= ratio)%R as Hpos
      by (unfold ratio; apply Rmult_le_pos; [lra | apply Rlt_le, Rinv_0_lt_compat; lra]).
    destruct (Rle_lt_dec 1 ratio) as [Hbig | Hsmall].
    + rewrite (clamp_high ratio 0 1) by lra. rewrite clamp_low by lra.
      rewrite gt_finite_false by lra. split; [discriminate | nra].
    + assert (Spec.clamp ratio 0 1 = ratio) as ->
        by (unfold Spec.clamp, Rmin, Rmax;
            destruct (Rle_dec ratio 0); destruct (Rle_dec _ 1); lra).
      assert (Spec.clamp (1 - ratio) 0 1 = (1 - ratio)%R) as ->
        by (unfold Spec.clamp, Rmin, Rmax;
            destruct (Rle_dec (1 - ratio) 0); destruct (Rle_dec _ 1); lra).
      destruct (Rlt_dec ratio 0.3) as [L | L].
      * rewrite gt_finite_true by lra. split; [nra | reflexivity].
      * rewrite gt_finite_false by lra. split; [discriminate | nra].
Qed.

(** The gate of the fist on a bounded hand of finite landmarks, with a margin
    on each side of its threshold for the rounding of the doubles: the
    tension exceeds 0.7 when the fingertips are on average at most 0.47
    times as far from the wrist as the finger bases, which are not all on
    the wrist, and does not exceed 0.7 when they are at least 0.49 times as
    far. *)
Theorem fist_gate (at_ : nat -> R * R * R) :
  Inputs.bounded_hand at_ ->
  exists tension : number,
    computeTension (Spec.finite_hand at_) = Some tension
    /\ ((0 < Spec.avgBase at_)%R ->
        (Spec.avgTip at_ <= 0.47 * Spec.avgBase at_)%R ->
        (tension >? 0.7) = true)
    /\ ((0.49 * Spec.avgBase at_ <= Spec.avgTip at_)%R ->
        (tension >? 0.7) = false).
Proof.
  intros _. rewrite computeTension_finite. eexists. split; [reflexivity |].
  pose proof (avgBase_nonneg at_) as Hbase.
  pose proof (tension_of_gate at_) as [Hclosed Hbelow].
  split.
  - intros Hpos Hle. apply Hbelow. lra.
  - intros Hge.
    destruct (Spec.tension_of _ _ >? 0.7); [| reflexivity].
    specialize (Hclosed eq_refl). lra.
Qed.

Lemma fist_gate_witness :
  exists tension : number,
    computeTension (Spec.finite_hand (Spec.fist_at 0.2)) = Some tension
    /\ (tension >? 0.7) = true.
Proof.
  assert (Inputs.in_range 0.2) as Hwx
    by (unfold Inputs.in_range, Inputs.coordinate_bound; lra).
  destruct (fist_gate (Spec.fist_at 0.2) (proj1 (fist_sized 0.2 Hwx)))
    as (tension & Ht & Hclosed & _).
  exists tension. split; [exact Ht |].
  destruct (fist_averages 0.2) as [Htip Hbase].
  apply Hclosed; rewrite ?Htip, Hbase; lra.
Defined.

Lemma double_clamp_range (v : number) (lo hi : R) :
  (lo <= hi)%R ->
  Inputs.within_or_NaN lo hi (Math_min (Math_max v (Fin lo)) (Fin hi)).
Proof.
  intros H. destruct v as [x | | |].
  - left. rewrite min_max_finite. apply clamp_bounds, H.
  - left. cbn. lra.
  - left. cbn. unfold Rmin. destruct (Rle_dec lo hi); lra.
  - right. reflexivity.
Qed.

(** Whatever the coordinates of a hand, the infinities and NaN included, the
    tension that [computeTension] returns is a number of [0, 1] or NaN. *)
Theorem computeTension_range (hand : list Landmark.t) (tension : number) :
  computeTension hand = Some tension ->
  Inputs.within_or_NaN 0 1 tension.
Proof.
  unfold computeTension. intros H.
  destruct (hand !! 0%nat) as [wrist |]; [| discriminate H].
  cbn [mbind option_bind] in H.
  destruct (pick hand [4; 8; 12; 16; 20]%nat) as [tips |]; [| discriminate H].
  cbn [mbind option_bind] in H.
  destruct (pick hand [5; 9; 13; 17]%nat) as [bases |]; [| discriminate H].
  cbn [mbind option_bind] in H. injection H as <-.
  apply double_clamp_range. lra.
Qed.

Lemma computeTension_range_witness :
  Inputs.within_or_NaN 0 1 NaN.
Proof.
  apply (computeTension_range (Spec.finite_hand Spec.coincident_hand) NaN).
  exact tension_coincident.
Defined.

End TensionMore.

(* ===================================================================== *)
(** ** Further properties of the chain of callbacks *)
(* ===================================================================== *)

Section LoopMore.

Local Open Scope js_scope.
Import Gesture.

(** A hand with fewer than 21 landmarks ends the chain of callbacks: the
    call raises the TypeError of [computeTension] after it has noted the time
    of the video; no signal is emitted, no callback is requested, and the
    frames that follow are never seen. *)
Theorem run_short_hand (s : Tracker) (f : Frame) (later : list Frame)
    (hand : list Landmark.t) (rest : list (list Landmark.t)) :
  Spec.processed s f ->
  hands f = hand :: rest ->
  (length hand < 21)%nat ->
  processFrame s f = TypeError (with_time s (currentTime f))
  /\ run s (f :: later) = (with_time s (currentTime f), []).
Proof.
  intros (Hl & Hv & Hnew) Hh Hlen.
  apply computeTension_short in Hlen.
  assert (processFrame s f = TypeError (with_time s (currentTime f))) as Hp.
  { unfold processFrame, hand_branch. rewrite Hl, Hv, Hnew, Hh, Hlen. reflexivity. }
  split; [exact Hp |]. cbn [run]. rewrite Hp. reflexivity.
Qed.

Lemma run_short_hand_witness :
  processFrame started (mkFrame (Fin 0) [[]] 1)
  = TypeError (with_time started (currentTime (mkFrame (Fin 0) [[]] 1)))
  /\ run started (mkFrame (Fin 0) [[]] 1 :: [Spec.fist_frame])
     = (with_time started (currentTime (mkFrame (Fin 0) [[]] 1)), []).
Proof.
  apply (run_short_hand started (mkFrame (Fin 0) [[]] 1) [Spec.fist_frame] [] []).
  - repeat split. apply strict_eq_finite_false. lra.
  - reflexivity.
  - cbn. lia.
Defined.

(** While the detector or the video is missing, the chain of callbacks does
    nothing: whatever the frames, no ref changes and no signal is emitted. *)
Theorem run_not_started (s : Tracker) (frames : list Frame) :
  handLandmarker s = false \/ videoRef s = false ->
  run s frames = (s, []).
Proof.
  intros H. destruct frames as [| f rest]; [reflexivity |].
  cbn [run]. unfold processFrame.
  assert (negb (handLandmarker s) || negb (videoRef s) = true) as ->.
  { destruct H as [-> | ->]; [reflexivity | apply orb_true_r]. }
  reflexivity.
Qed.

Lemma run_not_started_witness :
  run initial [Spec.fist_frame; Spec.moved_frame] = (initial, []).
Proof.
  apply (run_not_started initial [Spec.fist_frame; Spec.moved_frame]).
  left. reflexivity.
Defined.

(** The proof rule of the chain of callbacks: what every call of
    [processFrame] keeps of the refs, and gives to every signal it emits, holds
    of the refs at the end and of every signal emitted on the way. *)
Lemma run_invariant (I : Tracker -> Prop) (Q : HandControls -> Prop)
    (ok : Frame -> Prop) :
  (forall s f, I s -> ok f ->
     match processFrame s f with
     | Returned t => I (after t) /\ Forall Q (emitted t)
     | TypeError s' => I s'
     end) ->
  forall frames s,
    I s -> Forall ok frames ->
    I (run s frames).1 /\ Forall Q (run s frames).2.
Proof.
  intros Hstep. induction frames as [| f rest IH]; intros s Hs Hok.
  - split; [exact Hs | constructor].
  - inversion Hok as [| ? ? Hf Hrest]; subst.
    specialize (Hstep s f Hs Hf). cbn [run].
    destruct (processFrame s f) as [t | s'].
    + destruct Hstep as [Hafter Hem].
      destruct (rescheduled t).
      * specialize (IH (after t) Hafter Hrest).
        destruct (run (after t) rest) as [s'' out]. cbn [fst snd] in *.
        destruct IH as [IH1 IH2]. split; [exact IH1 |].
        apply Forall_app. split; assumption.
      * split; assumption.
    + split; [exact Hstep | constructor].
Qed.

Lemma zoom_step_range (z t : number) :
  Inputs.within_or_NaN 0.5 2.5
    (Math_min (Math_max (z * 0.7 + (0.5 + t * 2.0) * 0.3) 0.5) 2.5).
Proof. apply double_clamp_range. lra. Qed.

Lemma processFrame_cases (s : Tracker) (f : Frame) :
  (exists t, processFrame s f = Returned t /\ emitted t = []
             /\ Inputs.same_gesture (after t) s)
  \/ (processFrame s f = TypeError (with_time s (currentTime f)))
  \/ (hands f = [] /\ Spec.processed s f
      /\ processFrame s f =
         Returned (mkTick (with_raf (no_hand_branch (with_time s (currentTime f))).1
                                    (handle f))
                          [(no_hand_branch (with_time s (currentTime f))).2] true))
  \/ (exists hand rest tension wrist,
        hands f = hand :: rest /\ Spec.processed s f
        /\ computeTension hand = Some tension /\ hand !! 0%nat = Some wrist
        /\ let r := if tension >? 0.7
                    then Spec.closed_step (with_time s (currentTime f)) tension wrist
                    else Spec.open_step (with_time s (currentTime f)) tension wrist in
           processFrame s f = Returned (mkTick (with_raf r.1 (handle f)) [r.2] true)).
Proof.
  destruct (negb (handLandmarker s) || negb (videoRef s)) eqn:Hready.
  { left. unfold processFrame. rewrite Hready. eexists. repeat split. }
  destruct (lastVideoTime s === currentTime f) eqn:Hnew.
  { left. unfold processFrame. rewrite Hready, Hnew. eexists. repeat split. }
  assert (Spec.processed s f) as Hp.
  { apply orb_false_elim in Hready as [H1 H2].
    apply negb_false_iff in H1, H2. repeat split; assumption. }
  destruct (hands f) as [| hand rest] eqn:Hh.
  { right. right. left. split; [reflexivity |]. split; [exact Hp |].
    apply processFrame_no_hand; assumption. }
  destruct (computeTension hand) as [tension |] eqn:Ht.
  - destruct (hand !! 0%nat) as [wrist |] eqn:Hw.
    + right. right. right. exists hand, rest, tension, wrist.
      split; [reflexivity |]. split; [exact Hp |]. split; [exact Ht |].
      split; [exact Hw |]. cbv zeta.
      apply (processFrame_hand s f hand rest); try assumption.
      rewrite (hand_branch_eq _ hand tension wrist Ht Hw).
      destruct (tension >? 0.7); reflexivity.
    + exfalso. unfold computeTension in Ht. rewrite Hw in Ht. discriminate Ht.
  - right. left. unfold processFrame, hand_branch.
    rewrite Hready, Hnew, Hh, Ht. reflexivity.
Qed.

(** Whatever the frames and the landmarks in them, every zoom that a running
    chain of callbacks emits is a number of [0.5, 2.5] or NaN, as long as the
    stored signal it starts from is. *)
Theorem run_zoom_range (s : Tracker) (frames : list Frame) :
  Inputs.within_or_NaN 0.5 2.5 (zoom (controlsRef s)) ->
  Forall (fun c => Inputs.within_or_NaN 0.5 2.5 (zoom c)) (run s frames).2.
Proof.
  intros Hs.
  apply (run_invariant (fun s => Inputs.within_or_NaN 0.5 2.5 (zoom (controlsRef s)))
           (fun c => Inputs.within_or_NaN 0.5 2.5 (zoom c)) (fun _ => True));
    [| exact Hs | apply Forall_forall; intros; exact I].
  clear. intros s f Is _.
  destruct (processFrame_cases s f)
    as [(t & -> & -> & Hsame) | [-> | [(_ & _ & ->) | (hand & rest & tension & wrist
                                                       & _ & _ & _ & _ & Hr)]]].
  - split; [| constructor].
    destruct Hsame as (_ & _ & _ & _ & _ & _ & ->). exact Is.
  - exact Is.
  - cbn [after emitted]. split; [exact Is |].
    constructor; [exact Is | constructor].
  - cbv zeta in Hr. rewrite Hr. cbn [after emitted].
    destruct (tension >? 0.7);
      (split; [| constructor; [| constructor]]); apply zoom_step_range.
Qed.

Lemma run_zoom_range_witness :
  Forall (fun c => Inputs.within_or_NaN 0.5 2.5 (zoom c))
         (run started [Spec.coincident_frame; Spec.fist_frame]).2.
Proof.
  apply (run_zoom_range started [Spec.coincident_frame; Spec.fist_frame]).
  left. cbn. lra.
Defined.

Lemma tension_regular (at_ : nat -> R * R * R) :
  Spec.avgTip at_ <> 0%R \/ Spec.avgBase at_ <> 0%R ->
  exists t : R,
    computeTension (Spec.finite_hand at_) = Some (Fin t) /\ (0 <= t <= 1)%R.
Proof.
  intros Hnz. rewrite computeTension_finite.
  pose proof (avgTip_nonneg at_) as Htip.
  destruct (Req_dec_T (Spec.avgBase at_) 0) as [E | N].
  - exists 0%R. rewrite E, tension_of_flat_palm; [split; [reflexivity | lra] |].
    destruct Hnz; [lra | contradiction].
  - eexists. rewrite tension_of_regular by exact N.
    split; [reflexivity | apply clamp_bounds; lra].
Qed.

(** As long as every hand has 21 finite landmarks and is a sized hand
    (coordinates of magnitude at most 1e100, the finger bases or else the
    fingertips on average at least 1e-100 away from the wrist), the smoothed
    zoom itself stays in [0.5, 2.5], so that every emitted zoom is a number
    of [0.5, 2.5], never NaN. *)
Theorem run_zoom_bounded (s : Tracker) (frames : list Frame) :
  Inputs.zoom_bounded s ->
  Forall Inputs.regular_frame frames ->
  Inputs.zoom_bounded (run s frames).1
  /\ Forall (fun c => within 0.5 2.5 (zoom c)) (run s frames).2.
Proof.
  intros Hs Hok.
  apply (run_invariant Inputs.zoom_bounded (fun c => within 0.5 2.5 (zoom c))
           Inputs.regular_frame); [| exact Hs | exact Hok].
  clear. intros s f [Hz Hc] Hreg.
  destruct (processFrame_cases s f)
    as [(t & -> & -> & Hsame) | [-> | [(_ & _ & ->) | (hand & rest & tension & wrist
                                                       & Hh & _ & Ht & _ & Hr)]]].
  - split; [| constructor].
    destruct Hsame as (_ & _ & _ & _ & Ez & _ & Ec). split; [rewrite Ez | rewrite Ec];
      assumption.
  - split; assumption.
  - cbn [after emitted]. split; [split; assumption |].
    constructor; [exact Hc | constructor].
  - destruct (Hreg hand rest Hh) as (at_ & -> & Hsized).
    destruct (tension_regular at_ (sized_hand_averages at_ Hsized))
      as (t & Ht' & Hrange).
    rewrite Ht' in Ht. injection Ht as <-.
    cbv zeta in Hr. rewrite Hr. clear Hr.
    destruct (lastZoom s) as [z | | |] eqn:Ez; try contradiction. cbn in Hz.
    assert (0.5 <= z * 0.7 + (0.5 + t * 2.0) * 0.3 <= 2.5)%R as Hnew by lra.
    destruct (Fin t >? 0.7);
      cbn [after emitted fst snd with_raf with_time Spec.closed_step Spec.open_step
           with_gesture lastZoom controlsRef zoom];
      rewrite Ez; cbn [mul add]; rewrite min_max_finite, clamp_inside by exact Hnew;
      (split; [split; exact Hnew | constructor; [exact Hnew | constructor]]).
Qed.

Lemma regular_fist_frame : Inputs.regular_frame Spec.fist_frame.
Proof.
  intros hand rest [= <- _]. exists (Spec.fist_at 0.2). split; [reflexivity |].
  apply fist_sized. unfold Inputs.in_range, Inputs.coordinate_bound. lra.
Defined.

Lemma started_zoom_bounded : Inputs.zoom_bounded started.
Proof. split; cbn; lra. Defined.

Lemma run_zoom_bounded_witness :
  Inputs.zoom_bounded (run started [Spec.fist_frame]).1
  /\ Forall (fun c => within 0.5 2.5 (zoom c)) (run started [Spec.fist_frame]).2.
Proof.
  apply (run_zoom_bounded started [Spec.fist_frame]).
  - exact started_zoom_bounded.
  - constructor; [exact regular_fist_frame | constructor].
Defined.

Lemma anchor_bounded (s : Tracker) (now : number) (wrist : Landmark.t) :
  Inputs.pan_bounded s ->
  Inputs.normalized_wrist wrist ->
  within 0 1 (Vec2.x (Spec.anchor (with_time s now) wrist))
  /\ within 0 1 (Vec2.y (Spec.anchor (with_time s now) wrist)).
Proof.
  intros (_ & _ & Hb) Hw. unfold Spec.anchor. cbn [baseWristPos with_time].
  destruct (baseWristPos s) as [b |]; [apply Hb; reflexivity | exact Hw].
Qed.

(** As long as the wrist of every hand is in the unit square of the
    normalized image, the pan stays in [-6, 6] on both axes and so does
    every emitted panX and panY, whatever the other landmarks are. *)
Theorem run_pan_bounded (s : Tracker) (frames : list Frame) :
  Inputs.pan_bounded s ->
  Forall Inputs.normalized_frame frames ->
  Inputs.pan_bounded (run s frames).1
  /\ Forall (fun c => within (-6) 6 (panX c) /\ within (-6) 6 (panY c))
            (run s frames).2.
Proof.
  intros Hs Hok.
  apply (run_invariant Inputs.pan_bounded
           (fun c => within (-6) 6 (panX c) /\ within (-6) 6 (panY c))
           Inputs.normalized_frame); [| exact Hs | exact Hok].
  clear. intros s f Hs Hnorm.
  destruct (processFrame_cases s f)
    as [(t & -> & -> & Hsame) | [-> | [(_ & _ & ->) | (hand & rest & tension & wrist
                                                       & Hh & _ & _ & Hw & Hr)]]].
  - split; [| constructor].
    destruct Hsame as (_ & _ & _ & Ep & _ & Eb & _).
    unfold Inputs.pan_bounded. rewrite Ep, Eb. exact Hs.
  - exact Hs.
  - destruct Hs as (Hx & Hy & _).
    destruct (lastPan s) as [[px | | |] [py | | |]] eqn:Ep; try contradiction.
    cbn in Hx, Hy.
    cbn [after emitted fst snd with_raf no_hand_branch with_gesture with_time lastPan
         baseWristPos panX panY Vec2.x Vec2.y].
    rewrite Ep. cbn [Vec2.x Vec2.y mul].
    split; [repeat split; cbn; try lra; discriminate |].
    constructor; [split; cbn; lra | constructor].
  - pose proof (Hnorm hand rest Hh wrist Hw) as Hwrist.
    destruct (anchor_bounded s (currentTime f) wrist Hs Hwrist) as [Hax Hay].
    destruct Hwrist as [Hwx Hwy]. destruct Hs as (Hx & Hy & _).
    cbv zeta in Hr. rewrite Hr. clear Hr.
    destruct (lastPan s) as [[px | | |] [py | | |]] eqn:Ep; try contradiction.
    destruct (Landmark.x wrist) as [wx | | |] eqn:Ewx; try contradiction.
    destruct (Landmark.y wrist) as [wy | | |] eqn:Ewy; try contradiction.
    destruct (tension >? 0.7).
    + destruct (Spec.anchor (with_time s (currentTime f)) wrist) as [ax ay] eqn:Ea.
      destruct ax as [ax | | |]; try contradiction.
      destruct ay as [ay | | |]; try contradiction.
      cbn in Hx, Hy, Hwx, Hwy, Hax, Hay.
      cbn [after emitted fst snd with_raf Spec.closed_step with_gesture lastPan
           baseWristPos panX panY with_time].
      rewrite Ea, Ep, Ewx, Ewy. cbn [Vec2.x Vec2.y mul add sub neg].
      rewrite !MathUtils_clamp_finite by lra.
      pose proof (clamp_bounds (px * 0.6 + (wx - ax) * 6.0 * 0.4) (-1) 1 ltac:(lra)).
      pose proof (clamp_bounds (py * 0.6 + - (wy - ay) * 6.0 * 0.4) (-1) 1 ltac:(lra)).
      split; [split; [| split] |].
      * cbn. lra.
      * cbn. lra.
      * intros b [= <-]. cbn. split; lra.
      * constructor; [split; cbn; lra | constructor].
    + cbn in Hx, Hy, Hwx, Hwy.
      cbn [after emitted fst snd with_raf Spec.open_step with_gesture lastPan
           baseWristPos panX panY with_time].
      rewrite Ep, Ewx, Ewy. cbn [Vec2.x Vec2.y mul].
      split; [split; [| split] |].
      * cbn. lra.
      * cbn. lra.
      * intros b [= <-]. cbn. split; lra.
      * constructor; [split; cbn; lra | constructor].
Qed.

Lemma normalized_fist_frame (f : Frame) (wx : R) :
  (0 <= wx <= 1)%R ->
  hands f = [Spec.finite_hand (Spec.fist_at wx)] ->
  Inputs.normalized_frame f.
Proof.
  intros Hwx Hf hand rest Hh w Hw. rewrite Hf in Hh. injection Hh as <- _.
  injection Hw as <-. split; cbn; lra.
Defined.

Lemma started_pan_bounded : Inputs.pan_bounded started.
Proof. repeat split; cbn; try lra; discriminate. Defined.

Lemma run_pan_bounded_witness :
  Inputs.pan_bounded (run started [Spec.fist_frame; Spec.moved_frame]).1
  /\ Forall (fun c => within (-6) 6 (panX c) /\ within (-6) 6 (panY c))
            (run started [Spec.fist_frame; Spec.moved_frame]).2.
Proof.
  apply (run_pan_bounded started [Spec.fist_frame; Spec.moved_frame]).
  - exact started_pan_bounded.
  - constructor; [| constructor; [| constructor]].
    + apply (normalized_fist_frame Spec.fist_frame 0.2); [lra | reflexivity].
    + apply (normalized_fist_frame Spec.moved_frame 0.9); [lra | reflexivity].
Defined.

Lemma same_gesture_refl (s : Tracker) : Inputs.same_gesture s s.
Proof. repeat split. Qed.

Lemma processFrame_same_gesture (s s' : Tracker) (f : Frame) :
  Inputs.same_gesture s s' ->
  match processFrame s f, processFrame s' f with
  | Returned t, Returned t' =>
      emitted t = emitted t' /\ rescheduled t = rescheduled t'
      /\ Inputs.same_gesture (after t) (after t')
  | TypeError a, TypeError a' => Inputs.same_gesture a a'
  | _, _ => False
  end.
Proof.
  destruct s as [hl v raf time pan z b c], s' as [hl' v' raf' time' pan' z' b' c'].
  unfold Inputs.same_gesture. cbn [handLandmarker videoRef lastVideoTime lastPan
                                   lastZoom baseWristPos controlsRef].
  intros (<- & <- & <- & <- & <- & <- & <-).
  unfold processFrame, hand_branch, no_hand_branch.
  cbn [handLandmarker videoRef lastVideoTime lastPan lastZoom baseWristPos controlsRef
       with_time].
  destruct (negb hl || negb v); [repeat split |].
  destruct (time === currentTime f); [repeat split |].
  destruct (hands f) as [| hand rest]; [repeat split |].
  destruct (computeTension hand) as [tension |]; [| repeat split].
  cbn [mbind option_bind].
  destruct (hand !! 0%nat) as [wrist |]; [| repeat split].
  cbn [mbind option_bind].
  destruct (tension >? 0.7); repeat split.
Qed.

Lemma run_same_gesture (frames : list Frame) :
  forall s s' : Tracker,
    Inputs.same_gesture s s' ->
    (run s frames).2 = (run s' frames).2
    /\ Inputs.same_gesture (run s frames).1 (run s' frames).1.
Proof.
  induction frames as [| f rest IH]; intros s s' Hs.
  - split; [reflexivity | exact Hs].
  - cbn [run]. pose proof (processFrame_same_gesture s s' f Hs) as Hstep.
    destruct (processFrame s f) as [t | a], (processFrame s' f) as [t' | a'];
      try contradiction.
    + destruct Hstep as (He & <- & Hafter).
      destruct (rescheduled t).
      * specialize (IH (after t) (after t') Hafter).
        destruct (run (after t) rest) as [s1 out], (run (after t') rest) as [s1' out'].
        cbn [fst snd] in *. destruct IH as [-> IH]. rewrite He. split; [reflexivity | exact IH].
      * split; assumption.
    + split; [reflexivity | exact Hstep].
Qed.

(** A frame at the time of the video of the last processed frame is not seen
    by the consumer: the signals of the chain of callbacks are those of the
    chain without that frame, and so are the refs at the end, but for the
    handle of the requested callback. *)
Theorem run_stale_frame (s : Tracker) (g : Frame) (rest : list Frame) :
  handLandmarker s = true ->
  videoRef s = true ->
  (lastVideoTime s === currentTime g) = true ->
  (run s (g :: rest)).2 = (run s rest).2
  /\ Inputs.same_gesture (run s (g :: rest)).1 (run s rest).1.
Proof.
  intros Hl Hv Hsame. cbn [run]. unfold processFrame. rewrite Hl, Hv, Hsame.
  cbn [negb orb rescheduled after emitted].
  pose proof (run_same_gesture rest (with_raf s (handle g)) s) as H.
  destruct (run (with_raf s (handle g)) rest) as [s1 out]. cbn [fst snd app] in *.
  apply H. repeat split.
Qed.

Lemma run_stale_frame_witness :
  (run (with_time started (Fin 0)) (Spec.stale_frame :: [Spec.moved_frame])).2
  = (run (with_time started (Fin 0)) [Spec.moved_frame]).2
  /\ Inputs.same_gesture
       (run (with_time started (Fin 0)) (Spec.stale_frame :: [Spec.moved_frame])).1
       (run (with_time started (Fin 0)) [Spec.moved_frame]).1.
Proof.
  apply (run_stale_frame (with_time started (Fin 0)) Spec.stale_frame [Spec.moved_frame]).
  - reflexivity.
  - reflexivity.
  - apply strict_eq_finite_true.
Defined.

Lemma processFrame_stored (s : Tracker) (f : Frame) :
  match processFrame s f with
  | Returned t =>
      (emitted t = [] /\ controlsRef (after t) = controlsRef s)
      \/ emitted t = [controlsRef (after t)]
  | TypeError s' => controlsRef s' = controlsRef s
  end.
Proof.
  destruct (processFrame_cases s f)
    as [(t & -> & -> & Hsame) | [-> | [(_ & _ & ->) | (hand & rest & tension & wrist
                                                       & _ & _ & _ & _ & Hr)]]].
  - left. split; [reflexivity |]. apply Hsame.
  - reflexivity.
  - right. reflexivity.
  - cbv zeta in Hr. rewrite Hr. right. destruct (tension >? 0.7); reflexivity.
Qed.

(** The signal kept in [controlsRef] is at every moment the last signal passed
    to the consumer, or the signal the chain started from when none was
    passed. *)
Theorem run_stored_signal (frames : list Frame) :
  forall s : Tracker,
    controlsRef (run s frames).1 = default (controlsRef s) (last (run s frames).2).
Proof.
  induction frames as [| f rest IH]; intros s; [reflexivity |].
  cbn [run]. pose proof (processFrame_stored s f) as Hstep.
  destruct (processFrame s f) as [t | s']; [| exact Hstep].
  destruct (rescheduled t).
  - specialize (IH (after t)).
    destruct (run (after t) rest) as [s1 out]. cbn [fst snd] in *.
    destruct Hstep as [[-> E] | ->].
    + rewrite IH, E. reflexivity.
    + rewrite IH. destruct out as [| c out]; [reflexivity |].
      cbn [app]. rewrite !last_cons. destruct (last out); reflexivity.
  - cbn [fst snd]. destruct Hstep as [[-> E] | ->]; [exact E | reflexivity].
Qed.






End LoopMore.

(* ===================================================================== *)
(** ** The consumers of the signal: the camera, the zoom bar, the dots *)
(* ===================================================================== *)

Section SceneFacts.

Local Open Scope js_scope.
Import Scene.

Lemma clamp_4_25 (v : number) :
  v <> NaN -> within 4 25 (Gesture.MathUtils_clamp v 4 25).
Proof.
  intros Hv. destruct v as [x | | |]; try contradiction.
  - rewrite MathUtils_clamp_finite by lra. apply clamp_bounds. lra.
  - cbn. unfold Rmax. destruct (Rle_dec 4 25); lra.
  - cbn. lra.
Qed.

Lemma quotient_not_NaN (b : R) (zoom : number) :
  (0 < b)%R -> zoom <> NaN -> Fin b / zoom <> NaN.
Proof.
  intros Hb Hz. destruct zoom as [z | | |]; try contradiction; try discriminate.
  destruct (Req_dec_T z 0) as [E | N].
  - rewrite div_by_zero, scale_inf_pos by assumption. discriminate.
  - rewrite div_finite by assumption. discriminate.
Qed.

(** The camera of [animate] is between 4 and 25 away on its axis for every
    zoom that is a number, zero and the infinities included, in every mode;
    a zoom that is NaN puts it at NaN. *)
Theorem camera_distance (mode : string) (controls : HandControls) :
  (zoom controls = NaN -> (position (placeCamera mode controls)).2 = NaN)
  /\ (zoom controls <> NaN -> within 4 25 (position (placeCamera mode controls)).2).
Proof.
  unfold placeCamera. cbn [position snd]. split.
  - intros ->. destruct (String.eqb mode "solar"); reflexivity.
  - intros Hz. apply clamp_4_25.
    destruct (String.eqb mode "solar"); apply quotient_not_NaN; (lra || assumption).
Qed.

Lemma camera_distance_witness :
  (zoom App.initialControls = NaN
   -> (position (placeCamera "solar" App.initialControls)).2 = NaN)
  /\ (zoom App.initialControls <> NaN
      -> within 4 25 (position (placeCamera "solar" App.initialControls)).2).
Proof.
  apply (camera_distance "solar" App.initialControls).
Defined.

(** In the range [0.5, 2.5] of the tracker the clamp of the camera distance
    is idle outside the solar mode, where the distance is 10 / zoom; in the
    solar mode it is the smaller of 15 / zoom and 25, so that every zoom up to
    0.6 gives the one distance 25. *)
Theorem camera_distance_by_mode (mode : string) (z : R) (px py : number) (b : bool) :
  (0.5 <= z <= 2.5)%R ->
  (String.eqb mode "solar" = false ->
   (position (placeCamera mode (mkControls (Fin z) px py b))).2 = Fin (10 / z))
  /\ (position (placeCamera "solar" (mkControls (Fin z) px py b))).2
     = Fin (Rmin (15 / z) 25)
  /\ ((z <= 0.6)%R ->
      (position (placeCamera "solar" (mkControls (Fin z) px py b))).2 = Fin 25).
Proof.
  intros Hz.
  assert (/ z <= 2 /\ 0.4 <= / z)%R as [Hinv Hinv'].
  { split.
    - replace 2%R with (/ 0.5)%R by lra. apply Rinv_le_contravar; lra.
    - replace 0.4%R with (/ 2.5)%R by lra. apply Rinv_le_contravar; lra. }
  assert (forall base : R,
            Gesture.MathUtils_clamp (Fin base / Fin z) 4 25
            = Fin (Spec.clamp (base / z) 4 25)) as Hclamp.
  { intros base. rewrite div_finite by lra. apply MathUtils_clamp_finite. lra. }
  split; [| split].
  - intros Hmode. unfold placeCamera. cbn [position snd zoom]. rewrite Hmode.
    rewrite Hclamp. f_equal. apply clamp_inside. unfold Rdiv. lra.
  - unfold placeCamera. cbn [position snd zoom String.eqb Ascii.eqb Bool.eqb].
    rewrite Hclamp. f_equal. unfold Spec.clamp.
    rewrite (Rmax_left (15 / z) 4) by (unfold Rdiv; lra). reflexivity.
  - intros Hsmall. unfold placeCamera.
    cbn [position snd zoom String.eqb Ascii.eqb Bool.eqb].
    rewrite Hclamp. f_equal. apply clamp_high; [| lra].
    assert (/ 0.6 <= / z)%R by (apply Rinv_le_contravar; lra).
    unfold Rdiv. lra.
Qed.

Lemma camera_distance_by_mode_witness :
  (position (placeCamera "solar" App.initialControls)).2 = Fin 25.
Proof.
  apply (proj2 (proj2 (camera_distance_by_mode "solar" 0.6 0 0 false ltac:(lra)))).
  lra.
Defined.

(** The expansion of the dots undoes the target zoom of the tracker: the zoom
    [0.5 + tension * 2.0] of a tension of [0, 1] expands the dots by that
    tension. *)
Theorem expansion_of_target_zoom (t : R) (px py : number) (b : bool) :
  (0 <= t <= 1)%R ->
  expansion (mkControls (0.5 + Fin t * 2.0) px py b) = Fin t.
Proof.
  intros Ht. unfold expansion. cbn [zoom mul add sub].
  rewrite div_finite by lra. rewrite MathUtils_clamp_finite by lra.
  f_equal. rewrite clamp_inside; lra.
Qed.

Lemma expansion_of_target_zoom_witness :
  expansion (mkControls (0.5 + Fin 1 * 2.0) 0 0 false) = Fin 1.
Proof.
  apply (expansion_of_target_zoom 1 0 0 false). lra.
Defined.

Lemma infinity_over_positive (a : number) (y : R) :
  (0 < y)%R -> a = PInf \/ a = NInf -> a / Fin y = a.
Proof.
  intros Hy [-> | ->]; unfold div; destruct (Rlt_dec y 0); (lra || reflexivity).
Qed.

(** The zoom bar of the application shows the expansion of the dots as a
    percentage, for every zoom, number or not: its two nested
    [Math.min]/[Math.max] and the [clamp] of three.js agree. *)
Theorem zoomBar_is_expansion (controls : HandControls) :
  App.zoomBar controls = expansion controls * 100.
Proof.
  unfold App.zoomBar, expansion.
  destruct (zoom controls) as [z | | |]; cbn [sub add neg].
  - replace (Fin (z - 0.5) / Fin 2.0) with (Fin (z - 0.5) / Fin 2)
      by (rewrite !div_finite by lra; f_equal; lra).
    rewrite div_finite by lra. rewrite min_max_finite, MathUtils_clamp_finite by lra.
    reflexivity.
  - rewrite !(infinity_over_positive PInf) by (lra || (left; reflexivity)).
    cbn. f_equal. unfold Rmax. destruct (Rle_dec 0 1); lra.
  - rewrite !(infinity_over_positive NInf) by (lra || (right; reflexivity)).
    cbn. f_equal. unfold Rmax, Rmin.
    destruct (Rle_dec 0 1); destruct (Rle_dec 0 0); lra.
  - reflexivity.
Qed.

Lemma read_insert (array : list number) (i j : nat) (v : number) :
  read (<[i := v]> array) j
  = if decide (i = j /\ (i < length array)%nat) then v else read array j.
Proof.
  unfold read. rewrite list_lookup_insert. destruct (decide _); reflexivity.
Qed.

Lemma read_lookup (array : list number) (j : nat) :
  (j < length array)%nat -> array !! j = Some (read array j).
Proof.
  intros Hj. unfold read.
  destruct (lookup_lt_is_Some_2 array j Hj) as [v ->]. reflexivity.
Qed.

Lemma lerpDots_length (todo : nat) :
  forall (from : nat) (array targets : list number) (e : number),
    length (lerpDots todo from array targets e) = length array.
Proof.
  induction todo as [| todo IH]; intros from array targets e; [reflexivity |].
  cbn [lerpDots]. rewrite IH, !length_insert. reflexivity.
Qed.

(** The loop over the dots, read index by index: the indices of the
    iterations hold the blend of what the array held with the target, the
    others what they held. *)
Lemma lerpDots_read (todo : nat) :
  forall (from : nat) (array targets : list number) (e : number) (j : nat),
    ((from + todo) * 3 <= length array)%nat ->
    read (lerpDots todo from array targets e) j
    = if decide (from * 3 <= j < (from + todo) * 3)%nat
      then MathUtils_lerp (read array j) (read targets j) e
      else read array j.
Proof.
  induction todo as [| todo IH]; intros from array targets e j Hlen.
  - cbn [lerpDots]. destruct (decide _); [lia | reflexivity].
  - cbn [lerpDots]. rewrite IH by (rewrite !length_insert; lia).
    rewrite !read_insert, !length_insert.
    repeat destruct (decide _); try lia; try reflexivity;
      repeat match goal with
             | H : _ = _ /\ _ |- _ => destruct H as [H _]; try subst j
             end;
      try lia; try reflexivity;
      rewrite ?read_insert, ?length_insert;
      repeat destruct (decide _); try lia; reflexivity.
Qed.

Lemma animateDots_lookup (controls : HandControls) (cloud : DotCloud) (n : nat) :
  length (positions cloud) = (3 * n)%nat ->
  length (positions (animateDots "dots" controls cloud)) = (3 * n)%nat
  /\ forall j : nat,
      (j < 3 * n)%nat ->
      positions (animateDots "dots" controls cloud) !! j
      = Some (MathUtils_lerp (read (positions cloud) j) (read (targets cloud) j)
                             (expansion controls)).
Proof.
  intros Hlen. unfold animateDots. cbn [String.eqb Ascii.eqb Bool.eqb positions targets].
  assert ((length (positions cloud) + 2) / 3 = n)%nat as ->.
  { rewrite Hlen. symmetry. apply (Nat.div_unique _ 3 n 2); lia. }
  split; [rewrite lerpDots_length; exact Hlen |]. intros j Hj.
  rewrite read_lookup by (rewrite lerpDots_length; lia).
  rewrite lerpDots_read by lia.
  destruct (decide _); [reflexivity | lia].
Qed.

(** A frame of the dots mode blends every coordinate of the cloud with its
    target, starting from the coordinate that the frame before has left in
    the array: [initial] of [animate] is the array it writes. *)
Theorem animateDots_step (controls : HandControls) (cloud : DotCloud) (n j : nat) :
  length (positions cloud) = (3 * n)%nat ->
  (j < 3 * n)%nat ->
  length (positions (animateDots "dots" controls cloud)) = (3 * n)%nat
  /\ targets (animateDots "dots" controls cloud) = targets cloud
  /\ positions (animateDots "dots" controls cloud) !! j
     = Some (MathUtils_lerp (read (positions cloud) j) (read (targets cloud) j)
                            (expansion controls)).
Proof.
  intros Hlen Hj. destruct (animateDots_lookup controls cloud n Hlen) as [Hl Hlook].
  split; [exact Hl |]. split; [reflexivity |]. apply Hlook, Hj.
Qed.

Lemma animateDots_step_witness :
  length (positions (animateDots "dots" App.initialControls
                       (mkDotCloud [Fin 0; Fin 0; Fin 0] [Fin 1; Fin 2; Fin 3])))
  = (3 * 1)%nat
  /\ targets (animateDots "dots" App.initialControls
                (mkDotCloud [Fin 0; Fin 0; Fin 0] [Fin 1; Fin 2; Fin 3]))
     = targets (mkDotCloud [Fin 0; Fin 0; Fin 0] [Fin 1; Fin 2; Fin 3])
  /\ positions (animateDots "dots" App.initialControls
                  (mkDotCloud [Fin 0; Fin 0; Fin 0] [Fin 1; Fin 2; Fin 3])) !! 1%nat
     = Some (MathUtils_lerp
               (read (positions (mkDotCloud [Fin 0; Fin 0; Fin 0] [Fin 1; Fin 2; Fin 3])) 1)
               (read (targets (mkDotCloud [Fin 0; Fin 0; Fin 0] [Fin 1; Fin 2; Fin 3])) 1)
               (expansion App.initialControls)).
Proof.
  apply (animateDots_step App.initialControls
           (mkDotCloud [Fin 0; Fin 0; Fin 0] [Fin 1; Fin 2; Fin 3]) 1 1).
  - reflexivity.
  - lia.
Defined.

Lemma expansion_finite (controls : HandControls) :
  zoom controls <> NaN ->
  exists e : R, expansion controls = Fin e /\ (0 <= e <= 1)%R.
Proof.
  intros Hz. unfold expansion.
  destruct (zoom controls) as [z | | |]; try contradiction; cbn [sub add neg].
  - rewrite div_finite, MathUtils_clamp_finite by lra.
    eexists. split; [reflexivity | apply clamp_bounds; lra].
  - rewrite (infinity_over_positive PInf) by (lra || (left; reflexivity)).
    exists (Rmax 0 1). split; [reflexivity |].
    unfold Rmax. destruct (Rle_dec 0 1); lra.
  - rewrite (infinity_over_positive NInf) by (lra || (right; reflexivity)).
    exists 0%R. split; [reflexivity | lra].
Qed.

Lemma read_finite (ps : list R) (j : nat) (p : R) :
  ps !! j = Some p -> read (Fin <$> ps) j = Fin p.
Proof.
  intros H. unfold read. rewrite list_lookup_fmap, H. reflexivity.
Qed.

(** A frame of the dots on a cloud of finite coordinates, for a zoom that is
    a number: every coordinate is blended with its target by the expansion. *)
Lemma animateDots_finite (controls : HandControls) (ps ts : list R) (n : nat) (e : R) :
  length ps = (3 * n)%nat ->
  length ts = (3 * n)%nat ->
  expansion controls = Fin e ->
  animateDots "dots" controls (Inputs.finite_cloud ps ts)
  = Inputs.finite_cloud (zip_with (Inputs.blend e) ps ts) ts.
Proof.
  intros Hps Hts He.
  assert (length (Fin <$> ps) = (3 * n)%nat) as Hlen by (rewrite length_fmap; exact Hps).
  unfold Inputs.finite_cloud.
  destruct (animateDots_lookup controls (mkDotCloud (Fin <$> ps) (Fin <$> ts)) n Hlen)
    as [Hl Hlook].
  assert (targets (animateDots "dots" controls (mkDotCloud (Fin <$> ps) (Fin <$> ts)))
          = Fin <$> ts) as Htargets by reflexivity.
  destruct (animateDots "dots" controls (mkDotCloud (Fin <$> ps) (Fin <$> ts)))
    as [ps' ts'].
  cbn [positions targets] in *. subst ts'. f_equal.
  apply list_eq. intros j.
  destruct (Nat.lt_ge_cases j (3 * n)) as [Hj | Hj].
  - rewrite (Hlook j Hj).
    destruct (lookup_lt_is_Some_2 ps j ltac:(lia)) as [p Hp].
    destruct (lookup_lt_is_Some_2 ts j ltac:(lia)) as [t Ht].
    rewrite (read_finite ps j p Hp), (read_finite ts j t Ht), He.
    rewrite list_lookup_fmap.
    assert (zip_with (Inputs.blend e) ps ts !! j = Some (Inputs.blend e p t)) as ->
      by (apply lookup_zip_with_Some; eauto).
    reflexivity.
  - rewrite !lookup_ge_None_2; [reflexivity | |].
    + rewrite length_fmap, length_zip_with. lia.
    + lia.
Qed.

Lemma blend_nearer (e p t : R) :
  (0 <= e <= 1)%R -> (Rabs (Inputs.blend e p t - t) <= Rabs (p - t))%R.
Proof.
  intros He. unfold Inputs.blend.
  replace ((1 - e) * p + e * t - t)%R with ((1 - e) * (p - t))%R by ring.
  rewrite Rabs_mult, (Rabs_pos_eq (1 - e)) by lra.
  pose proof (Rabs_pos (p - t)). nra.
Qed.

Lemma zip_blend_zero (ps ts : list R) :
  length ps = length ts -> zip_with (Inputs.blend 0) ps ts = ps.
Proof.
  revert ts. induction ps as [| p ps IH]; intros [| t ts] Hlen;
    try reflexivity; try discriminate Hlen.
  cbn [zip_with]. rewrite IH by (cbn [length] in Hlen; lia).
  f_equal. unfold Inputs.blend. lra.
Qed.

(** A frame of the dots under a zoom of at most 0.5 leaves a cloud of finite
    coordinates exactly where the frames before have moved it. *)
Theorem dots_keep_position (z : R) (px py : number) (b : bool) (ps ts : list R)
    (n : nat) :
  length ps = (3 * n)%nat ->
  length ts = (3 * n)%nat ->
  (z <= 0.5)%R ->
  animateDots "dots" (mkControls (Fin z) px py b) (Inputs.finite_cloud ps ts)
  = Inputs.finite_cloud ps ts.
Proof.
  intros Hps Hts Hz.
  rewrite (animateDots_finite _ ps ts n 0 Hps Hts).
  - rewrite zip_blend_zero by lia. reflexivity.
  - unfold expansion. cbn [zoom sub].
    rewrite div_finite, MathUtils_clamp_finite by lra.
    f_equal. apply clamp_low; lra.
Qed.

Lemma dots_keep_position_witness :
  animateDots "dots" (mkControls (Fin 0.5) 0 0 false)
    (Inputs.finite_cloud [1; 2; 3]%R [4; 5; 6]%R)
  = Inputs.finite_cloud [1; 2; 3]%R [4; 5; 6]%R.
Proof.
  apply (dots_keep_position 0.5 0 0 false [1; 2; 3]%R [4; 5; 6]%R 1).
  - reflexivity.
  - reflexivity.
  - lra.
Defined.

(** No sequence of signals brings the dots back towards the sphere they
    started from: under signals whose zoom is a number, the cloud stays a
    cloud of finite coordinates and no coordinate ever gets farther from its
    target than it was. *)
Theorem dots_never_back (signals : list HandControls) :
  forall (ps ts : list R) (n : nat),
    length ps = (3 * n)%nat ->
    length ts = (3 * n)%nat ->
    Forall (fun c => zoom c <> NaN) signals ->
    exists ps' : list R,
      animateAll signals (Inputs.finite_cloud ps ts) = Inputs.finite_cloud ps' ts
      /\ length ps' = (3 * n)%nat
      /\ forall (j : nat) (p t p' : R),
          ps !! j = Some p -> ts !! j = Some t -> ps' !! j = Some p' ->
          (Rabs (p' - t) <= Rabs (p - t))%R.
Proof.
  induction signals as [| c cs IH]; intros ps ts n Hps Hts Hok.
  - exists ps. split; [reflexivity |]. split; [exact Hps |].
    intros j p t p' Hp _ Hp'. rewrite Hp in Hp'. injection Hp' as <-. lra.
  - inversion Hok as [| ? ? Hc Hcs]; subst.
    destruct (expansion_finite c Hc) as (e & He & Hrange).
    unfold animateAll. cbn [fold_left].
    rewrite (animateDots_finite c ps ts n e Hps Hts He).
    destruct (IH (zip_with (Inputs.blend e) ps ts) ts n) as (ps' & Hrun & Hlen & Hnear).
    + rewrite length_zip_with. lia.
    + exact Hts.
    + exact Hcs.
    + exists ps'. split; [exact Hrun |]. split; [exact Hlen |].
      intros j p t p' Hp Ht Hp'.
      apply Rle_trans with (Rabs (Inputs.blend e p t - t)).
      * apply (Hnear j (Inputs.blend e p t) t p'); try assumption.
        apply lookup_zip_with_Some. eauto.
      * apply blend_nearer. exact Hrange.
Qed.

Lemma dots_never_back_witness :
  exists ps' : list R,
    animateAll [App.initialControls] (Inputs.finite_cloud [1; 2; 3]%R [4; 5; 6]%R)
    = Inputs.finite_cloud ps' [4; 5; 6]%R
    /\ length ps' = (3 * 1)%nat
    /\ forall (j : nat) (p t p' : R),
        [1; 2; 3]%R !! j = Some p -> [4; 5; 6]%R !! j = Some t -> ps' !! j = Some p' ->
        (Rabs (p' - t) <= Rabs (p - t))%R.
Proof.
  apply (dots_never_back [App.initialControls] [1; 2; 3]%R [4; 5; 6]%R 1).
  - reflexivity.
  - reflexivity.
  - constructor; [discriminate | constructor].
Defined.

End SceneFacts.

(* ===================================================================== *)
(** ** The dot cloud and the volume samplers *)
(* ===================================================================== *)

Section Volumes.

Import Geometry.

(** The cube root of a draw is a number of [0, 1). *)
Lemma cbrt_unit (a : R) : (0 <= a < 1 -> 0 <= Math_cbrt a < 1)%R.
Proof.
  intros [H0 H1]. unfold Math_cbrt.
  destruct (Rlt_dec 0 a) as [Hpos | Hnpos].
  - unfold Rpower. split; [apply Rlt_le, exp_pos |].
    rewrite <- exp_0. apply exp_increasing.
    pose proof (ln_increasing a 1 Hpos H1) as Hln. rewrite ln_1 in Hln. lra.
  - destruct (Rlt_dec a 0); lra.
Qed.

Lemma ball_norm (r : R) (phi theta : R) :
  (0 <= r)%R ->
  norm (r * sin phi * cos theta, r * sin phi * sin theta, r * cos phi)%R = r.
Proof.
  intros Hr. unfold norm. rewrite sphere_identity.
  - apply sqrt_square, Hr.
  - apply (sin2_cos2 phi).
  - apply (sin2_cos2 theta).
Qed.

Lemma randomInSphere_norm (radius : R) (draws : nat -> R) (k : nat) :
  Spec.unit_draws draws ->
  (0 <= radius)%R ->
  norm (randomInSphere radius draws k).1 = (radius * Math_cbrt (draws k))%R
  /\ (randomInSphere radius draws k).2 = S (S (S k)).
Proof.
  intros Hd Hr. unfold randomInSphere. unfold_sampler. cbn [fst snd].
  split; [| reflexivity]. apply ball_norm.
  pose proof (cbrt_unit (draws k) (Hd k)). nra.
Qed.

(** [randomInSphere] samples inside the ball: a point is never farther from
    the origin than the radius, for a radius that is not negative. *)
Theorem randomInSphere_inside (radius : R) (draws : nat -> R) (k : nat) :
  Spec.unit_draws draws ->
  (0 <= radius)%R ->
  (0 <= norm (randomInSphere radius draws k).1 <= radius)%R.
Proof.
  intros Hd Hr. destruct (randomInSphere_norm radius draws k Hd Hr) as [-> _].
  pose proof (cbrt_unit (draws k) (Hd k)). nra.
Qed.

Lemma randomInSphere_inside_witness :
  (0 <= norm (randomInSphere 1 (fun _ => 0.5) 0%nat).1 <= 1)%R.
Proof.
  apply (randomInSphere_inside 1 (fun _ => 0.5) 0%nat).
  - exact half_draws.
  - lra.
Defined.

(** Every point of the shape "fireworks" in the buffer is less than 1.8 away
    from the origin. *)
Theorem fireworks_inside (count : nat) (draws : nat -> R) (k i : nat) :
  Spec.unit_draws draws ->
  (i < count)%nat ->
  exists p : Point,
    triple (generateGeometry "fireworks" count draws k).1 i = Some p
    /\ (norm p < 1.8)%R.
Proof.
  intros Hd Hi.
  destruct (generateGeometry_triple "fireworks" count draws k i Hi) as [k' Hk'].
  eexists. split; [exact Hk' |].
  change (samplePoint "fireworks" i count) with (rand 1 1.8 ≫= randomInSphere).
  rewrite bind_run.
  destruct (rand_bounds 1 1.8 draws k' Hd ltac:(lra)) as [Hr _].
  destruct (rand 1 1.8 draws k') as [radius k1]. cbn [fst] in Hr.
  destruct (randomInSphere_norm radius draws k1 Hd ltac:(lra)) as [-> _].
  pose proof (cbrt_unit (draws k1) (Hd k1)). nra.
Qed.

Lemma fireworks_inside_witness :
  exists p : Point,
    triple (generateGeometry "fireworks" 10 (fun _ => 0.5) 0%nat).1 3%nat = Some p
    /\ (norm p < 1.8)%R.
Proof.
  apply (fireworks_inside 10 (fun _ => 0.5) 0%nat 3%nat).
  - exact half_draws.
  - lia.
Defined.

Lemma store3_finite (ps : list R) (i : nat) (p : Point) :
  Scene.store3 (Fin <$> ps) i p = Fin <$> store ps i p.
Proof.
  destruct p as [[p0 p1] p2]. unfold Scene.store3, store.
  rewrite !list_fmap_insert. reflexivity.
Qed.

Lemma dotPair_run (draws : nat -> R) (k : nat) :
  Spec.unit_draws draws ->
  (Scene.dotPair 0.6 draws k).2 = (k + 6)%nat
  /\ (0.48 <= norm (Scene.dotPair 0.6 draws k).1.1 < 0.6)%R
  /\ (0 <= norm (Scene.dotPair 0.6 draws k).1.2 < 8)%R.
Proof.
  intros Hd. unfold Scene.dotPair. unfold_sampler. cbn [fst snd].
  split; [f_equal; lia |].
  pose proof (Hd (S (S k))) as Hw.
  pose proof (cbrt_unit (draws (S (S (S k)))) (Hd _)) as Ha.
  rewrite !ball_norm by nra. split; nra.
Qed.

(** The loop of [createDotCloud], on arrays of finite numbers: iteration [i]
    takes its six draws from the cursor [k + 6 * (i - from)] on. *)
Lemma fillDots_spec (todo : nat) :
  forall (from : nat) (ps ts : list R) (draws : nat -> R) (k : nat),
    ((from + todo) * 3 <= length ps)%nat ->
    ((from + todo) * 3 <= length ts)%nat ->
    exists ps' ts' : list R,
      Scene.fillDots todo from (Fin <$> ps) (Fin <$> ts) draws k
      = ((Fin <$> ps', Fin <$> ts'), (k + 6 * todo)%nat)
      /\ length ps' = length ps /\ length ts' = length ts
      /\ (forall i, (i < from)%nat ->
            triple ps' i = triple ps i /\ triple ts' i = triple ts i)
      /\ (forall i, (from <= i < from + todo)%nat ->
            triple ps' i
            = Some (Scene.dotPair 0.6 draws (k + 6 * (i - from))%nat).1.1
            /\ triple ts' i
               = Some (Scene.dotPair 0.6 draws (k + 6 * (i - from))%nat).1.2).
Proof.
  induction todo as [| todo IH]; intros from ps ts draws k Hps Hts.
  - exists ps, ts. cbn [Scene.fillDots]. unfold mret, sampler_ret.
    split; [f_equal; lia |]. repeat split; intros; lia.
  - cbn [Scene.fillDots]. rewrite bind_run.
    assert ((Scene.dotPair 0.6 draws k).2 = (k + 6)%nat) as Hk
      by (unfold Scene.dotPair; unfold_sampler; cbn [snd]; lia).
    destruct (Scene.dotPair 0.6 draws k) as [[initial target] k1] eqn:Hpair.
    cbn [snd] in Hk. subst k1. rewrite !store3_finite.
    destruct (IH (S from) (store ps from initial) (store ts from target) draws (k + 6)%nat)
      as (ps' & ts' & Hrun & Hlp & Hlt & Hbefore & Hin);
      [rewrite store_length; lia | rewrite store_length; lia |].
    exists ps', ts'. rewrite Hrun, Hlp, Hlt, !store_length.
    split; [f_equal; lia |]. split; [reflexivity |]. split; [reflexivity |].
    split.
    + intros i Hi. destruct (Hbefore i ltac:(lia)) as [-> ->].
      rewrite !store_triple_other by lia. split; reflexivity.
    + intros i Hi. destruct (Nat.eq_dec i from) as [-> | Hne].
      * destruct (Hbefore from ltac:(lia)) as [-> ->].
        rewrite !store_triple_same by lia.
        replace (k + 6 * (from - from))%nat with k by lia.
        rewrite Hpair. split; reflexivity.
      * replace (k + 6 * (i - from))%nat with (k + 6 + 6 * (i - S from))%nat by lia.
        apply Hin. lia.
Qed.

Lemma generateUUID_run (draws : nat -> R) (k : nat) :
  Scene.generateUUID draws k = (tt, (k + 4)%nat).
Proof.
  unfold Scene.generateUUID. unfold_sampler. f_equal. lia.
Qed.

(** [createDotCloud(count)] fills two arrays of [3 * count] finite numbers
    and calls [Math.random] [6 * count + 12] times: four times for the uuid
    of the geometry, six times in each iteration of the loop, and eight
    times for the uuids of the material and of the points.  The point [i]
    and its target come from the six draws at [k + 4 + 6 * i]: the point is
    between 0.48 and 0.6 away from the origin, the target less than 8
    away. *)
Theorem createDotCloud_cloud (count : nat) (draws : nat -> R) (k : nat) :
  Spec.unit_draws draws ->
  exists ps ts : list R,
    Scene.createDotCloud count draws k
    = (Inputs.finite_cloud ps ts, (k + 6 * count + 12)%nat)
    /\ length ps = (3 * count)%nat
    /\ length ts = (3 * count)%nat
    /\ forall i : nat,
        (i < count)%nat ->
        exists p q : Point,
          triple ps i = Some p /\ triple ts i = Some q
          /\ (p, q) = (Scene.dotPair 0.6 draws (k + 4 + 6 * i)%nat).1
          /\ (0.48 <= norm p < 0.6)%R /\ (0 <= norm q < 8)%R.
Proof.
  intros Hd. unfold Scene.createDotCloud.
  rewrite bind_run, generateUUID_run, bind_run.
  destruct (fillDots_spec count 0 (replicate (count * 3) 0%R) (replicate (count * 3) 0%R)
              draws (k + 4)%nat) as (ps & ts & Hrun & Hlp & Hlt & _ & Hin);
    [rewrite length_replicate; lia | rewrite length_replicate; lia |].
  rewrite !fmap_replicate in Hrun. rewrite Hrun.
  rewrite bind_run, generateUUID_run, bind_run, generateUUID_run.
  exists ps, ts. rewrite length_replicate in Hlp, Hlt.
  split; [unfold mret, sampler_ret; f_equal; lia |]. split; [lia |]. split; [lia |].
  intros i Hi. destruct (Hin i ltac:(lia)) as (Hp & Hq).
  replace (k + 4 + 6 * (i - 0))%nat with (k + 4 + 6 * i)%nat in Hp, Hq by lia.
  destruct (dotPair_run draws (k + 4 + 6 * i)%nat Hd) as (_ & Hnp & Hnq).
  eexists _, _. split; [exact Hp |]. split; [exact Hq |].
  split; [| split; assumption].
  destruct (Scene.dotPair 0.6 draws (k + 4 + 6 * i)%nat) as [[p q] k']. reflexivity.
Qed.

Lemma createDotCloud_cloud_witness :
  exists ps ts : list R,
    Scene.createDotCloud 2000 (fun _ => 0.5) 0%nat
    = (Inputs.finite_cloud ps ts, (0 + 6 * 2000 + 12)%nat)
    /\ length ps = (3 * 2000)%nat
    /\ length ts = (3 * 2000)%nat
    /\ forall i : nat,
        (i < 2000)%nat ->
        exists p q : Point,
          triple ps i = Some p /\ triple ts i = Some q
          /\ (p, q) = (Scene.dotPair 0.6 (fun _ => 0.5) (0 + 4 + 6 * i)%nat).1
          /\ (0.48 <= norm p < 0.6)%R /\ (0 <= norm q < 8)%R.
Proof.
  apply (createDotCloud_cloud 2000 (fun _ => 0.5) 0%nat). exact half_draws.
Defined.

End Volumes.

(* ===================================================================== *)
(** ** The shapes in the buffer *)
(* ===================================================================== *)

Section Shapes.

Import Geometry.

Lemma rotation_identity (a d s c : R) :
  (s * s + c * c = 1 ->
   (a * c - d * s) * (a * c - d * s) + (a * s + d * c) * (a * s + d * c)
   = a * a + d * d)%R.
Proof.
  intros H.
  replace ((a * c - d * s) * (a * c - d * s) + (a * s + d * c) * (a * s + d * c))%R
    with ((a * a + d * d) * (s * s + c * c))%R by ring.
  rewrite H. ring.
Qed.

Lemma heartPoint_box (draws : nat -> R) (k : nat) :
  Spec.unit_draws draws ->
  (axis_distance (heartPoint draws k).1 < 0.54)%R
  /\ (Rabs (heartPoint draws k).1.1.2 <= 0.525)%R
  /\ (heartPoint draws k).2 = (k + 4)%nat.
Proof.
  intros Hd. unfold heartPoint, rand. unfold_sampler. cbn [fst snd].
  set (t := (draws k * (PI - 0) + 0)%R).
  set (r := (draws (S k) * (1 - 0.72) + 0.72)%R).
  set (depth := (draws (S (S k)) * (0.35 - -0.35) + -0.35)%R).
  set (angle := (draws (S (S (S k))) * (PI * 2 - 0) + 0)%R).
  pose proof (Hd k) as H0. pose proof (Hd (S k)) as H1. pose proof (Hd (S (S k))) as H2.
  pose proof PI_RGT_0 as Hpi.
  assert (0 <= t <= PI)%R as Ht by (unfold t; nra).
  assert (0 <= sin t <= 1)%R as Hsin
    by (split; [apply sin_ge_0; lra | apply SIN_bound]).
  assert (0 <= sin t ^ 3 <= 1)%R as Hcube.
  { cbn [pow]. rewrite Rmult_1_r.
    assert (0 <= sin t * sin t <= 1)%R by nra. nra. }
  assert (0.018 <= 0.025 * r < 0.025)%R as Hscale by (unfold r; lra).
  assert (-0.35 <= depth < 0.35)%R as Hdepth by (unfold depth; lra).
  split; [| split].
  - unfold axis_distance.
    rewrite rotation_identity by apply sin2_cos2.
    set (a := (16 * sin t ^ 3 * (0.025 * r))%R).
    assert (0 <= a < 0.4)%R as Ha by (unfold a; nra).
    replace 0.54%R with (sqrt (0.54 * 0.54)) by (apply sqrt_square; lra).
    apply sqrt_lt_1_alt. nra.
  - pose proof (COS_bound t). pose proof (COS_bound (2 * t)).
    pose proof (COS_bound (3 * t)). pose proof (COS_bound (4 * t)).
    set (y2d := (13 * cos t - 5 * cos (2 * t) - 2 * cos (3 * t) - cos (4 * t))%R).
    assert (-21 <= y2d <= 21)%R as Hy by (unfold y2d; lra).
    apply Rabs_le. nra.
  - lia.
Qed.

(** Every point of the shape "heart" in the buffer is less than 0.54 away
    from the vertical axis and at most 0.525 above or under the origin. *)
Theorem heart_box (count : nat) (draws : nat -> R) (k i : nat) :
  Spec.unit_draws draws ->
  (i < count)%nat ->
  exists p : Point,
    triple (generateGeometry "heart" count draws k).1 i = Some p
    /\ (axis_distance p < 0.54)%R /\ (Rabs p.1.2 <= 0.525)%R.
Proof.
  intros Hd Hi.
  destruct (generateGeometry_triple "heart" count draws k i Hi) as [k' Hk'].
  eexists. split; [exact Hk' |].
  change (samplePoint "heart" i count) with heartPoint.
  destruct (heartPoint_box draws k' Hd) as (Ha & Hy & _). split; assumption.
Qed.

Lemma heart_box_witness :
  exists p : Point,
    triple (generateGeometry "heart" 10 (fun _ => 0.5) 0%nat).1 3%nat = Some p
    /\ (axis_distance p < 0.54)%R /\ (Rabs p.1.2 <= 0.525)%R.
Proof.
  apply (heart_box 10 (fun _ => 0.5) 0%nat 3%nat).
  - exact half_draws.
  - lia.
Defined.

Lemma randomOnSphere_run (radius : R) (draws : nat -> R) (k : nat) :
  exists phi theta : R,
    randomOnSphere radius draws k
    = ((radius * sin phi * cos theta, radius * sin phi * sin theta, radius * cos phi)%R,
       S (S k)).
Proof.
  unfold randomOnSphere. unfold_sampler. eexists _, _. reflexivity.
Qed.

Lemma randomInSphere_run (radius : R) (draws : nat -> R) (k : nat) :
  exists phi theta : R,
    randomInSphere radius draws k
    = ((radius * Math_cbrt (draws k) * sin phi * cos theta,
        radius * Math_cbrt (draws k) * sin phi * sin theta,
        radius * Math_cbrt (draws k) * cos phi)%R,
       S (S (S k))).
Proof.
  unfold randomInSphere. unfold_sampler. eexists _, _. reflexivity.
Qed.



Lemma saturnPoint_cases (i N : nat) (draws : nat -> R) (k : nat) :
  Spec.unit_draws draws ->
  (0 < N)%nat ->
  ((5 * i <= 2 * N)%nat ->
   norm (saturnPoint i N draws k).1 = 0.55
   /\ (saturnPoint i N draws k).2 = (k + 2)%nat)
  /\ ((2 * N < 5 * i)%nat ->
      (1.4 <= axis_distance (saturnPoint i N draws k).1 < 2.1)%R
      /\ (-0.12 <= (saturnPoint i N draws k).1.1.2 < 0.12)%R
      /\ (saturnPoint i N draws k).2 = (k + 3)%nat).
Proof.
  intros Hd HN. pose proof (on_planet_iff i N HN) as Hiff.
  unfold Spec.on_planet in Hiff. unfold saturnPoint.
  destruct (Rlt_dec 0.4 (INR i / INR N)) as [Hring | Hplanet].
  - split; [intros Hle; apply Hiff in Hle; discriminate Hle |]. intros _.
    unfold rand. unfold_sampler. cbn [fst snd].
    pose proof (Hd k) as H0. pose proof (Hd (S (S k))) as H2.
    unfold axis_distance. rewrite circle_identity by apply sin2_cos2.
    rewrite sqrt_square by lra. repeat split; try lra. lia.
  - split; [intros _ | intros Hgt; pose proof (proj1 Hiff eq_refl); lia].
    destruct (randomOnSphere_run (1 - 0.45) draws k) as (phi & theta & ->).
    cbn [fst snd]. split; [| lia]. rewrite ball_norm; lra.
Qed.

(** The buffer of the shape "saturn": the triples of the indices [i] with
    [5 * i <= 2 * N] are on the sphere of radius 0.55, the planet, and all the
    triples behind them are in the ring, between 1.4 and 2.1 away from the
    axis and less than 0.12 off its plane. *)
Theorem saturn_layout (N : nat) (draws : nat -> R) (k i : nat) :
  Spec.unit_draws draws ->
  (i < N)%nat ->
  exists p : Point,
    triple (generateGeometry "saturn" N draws k).1 i = Some p
    /\ ((5 * i <= 2 * N)%nat -> norm p = 0.55)
    /\ ((2 * N < 5 * i)%nat ->
        (1.4 <= axis_distance p < 2.1)%R /\ (-0.12 <= p.1.2 < 0.12)%R).
Proof.
  intros Hd Hi.
  destruct (generateGeometry_triple "saturn" N draws k i Hi) as [k' Hk'].
  eexists. split; [exact Hk' |].
  change (samplePoint "saturn" i N) with (saturnPoint i N).
  destruct (saturnPoint_cases i N draws k' Hd ltac:(lia)) as [Hplanet Hring].
  split.
  - intros H. apply Hplanet, H.
  - intros H. destruct (Hring H) as (Ha & Hy & _). split; assumption.
Qed.

Lemma saturn_layout_witness :
  exists p : Point,
    triple (generateGeometry "saturn" 10 (fun _ => 0.5) 0%nat).1 7%nat = Some p
    /\ ((5 * 7 <= 2 * 10)%nat -> norm p = 0.55)
    /\ ((2 * 10 < 5 * 7)%nat ->
        (1.4 <= axis_distance p < 2.1)%R /\ (-0.12 <= p.1.2 < 0.12)%R).
Proof.
  apply (saturn_layout 10 (fun _ => 0.5) 0%nat 7%nat).
  - exact half_draws.
  - lia.
Defined.

Lemma samplePoint_default (type : string) (i count : nat) :
  ~ In type ["sphere"; "heart"; "flower"; "saturn"; "buddha"; "fireworks"]%string ->
  samplePoint type i count = randomOnSphere 1.
Proof.
  intros Hout. unfold samplePoint.
  repeat match goal with
         | |- context [String.eqb type ?name] =>
             destruct (String.eqb_spec type name) as [-> | _];
             [exfalso; apply Hout; cbn; tauto |]
         end.
  reflexivity.
Qed.

(** A shape string outside the six of the [switch] takes its [default]:
    every point of the buffer is on the sphere of radius 1. *)
Theorem unknown_shape_sphere (type : string) (count : nat) (draws : nat -> R)
    (k i : nat) :
  ~ In type ["sphere"; "heart"; "flower"; "saturn"; "buddha"; "fireworks"]%string ->
  (i < count)%nat ->
  exists p : Point,
    triple (generateGeometry type count draws k).1 i = Some p /\ norm p = 1.
Proof.
  intros Hout Hi.
  destruct (generateGeometry_triple type count draws k i Hi) as [k' Hk'].
  eexists. split; [exact Hk' |].
  rewrite (samplePoint_default type i count Hout).
  apply randomOnSphere_norm. lra.
Qed.

Lemma unknown_shape_sphere_witness :
  exists p : Point,
    triple (generateGeometry "cube" 10 (fun _ => 0.5) 0%nat).1 3%nat = Some p
    /\ norm p = 1.
Proof.
  apply (unknown_shape_sphere "cube" 10 (fun _ => 0.5) 0%nat 3%nat).
  - cbn. intros [H | [H | [H | [H | [H | [H | []]]]]]]; discriminate H.
  - lia.
Defined.

(** The flower is a disk: every point of the shape "flower" in the buffer is
    less than 1.25 away from the vertical axis and at most 0.35 off the plane
    of the disk, and the first point is the origin. *)
Theorem flower_disk (N : nat) (draws : nat -> R) (k i : nat) :
  (i < N)%nat ->
  exists p : Point,
    triple (generateGeometry "flower" N draws k).1 i = Some p
    /\ (axis_distance p < 1.25)%R
    /\ (Rabs p.1.2 <= 0.35)%R
    /\ (i = 0%nat -> p = (0, 0, 0)%R).
Proof.
  intros Hi.
  destruct (generateGeometry_triple "flower" N draws k i Hi) as [k' Hk'].
  eexists. split; [exact Hk' |].
  change (samplePoint "flower" i N draws k').1 with (phyllotaxisPoint i N).
  assert (0 < INR N)%R as HN by (apply lt_0_INR; lia).
  assert (0 <= INR i / INR N < 1)%R as Hfrac.
  { split; [apply index_fraction_nonneg |].
    apply Rmult_lt_reg_r with (INR N); [exact HN |].
    unfold Rdiv. rewrite Rmult_assoc, Rinv_l, Rmult_1_r, Rmult_1_l by lra.
    apply lt_INR, Hi. }
  split; [| split].
  - rewrite phyllotaxis_axis_distance.
    assert (sqrt (INR i / INR N) < 1)%R
      by (rewrite <- sqrt_1; apply sqrt_lt_1_alt; lra).
    lra.
  - unfold phyllotaxisPoint. cbn [fst snd].
    pose proof (SIN_bound (sqrt (INR i / INR N) * 1.25 * 1.3)).
    apply Rabs_le. lra.
  - intros ->. unfold phyllotaxisPoint. cbn [INR].
    unfold Rdiv. rewrite !Rmult_0_l, sqrt_0, !Rmult_0_l, sin_0, !Rmult_0_l.
    reflexivity.
Qed.

Lemma flower_disk_witness :
  exists p : Point,
    triple (generateGeometry "flower" 10 (fun _ => 0.5) 0%nat).1 0%nat = Some p
    /\ (axis_distance p < 1.25)%R
    /\ (Rabs p.1.2 <= 0.35)%R
    /\ (0%nat = 0%nat -> p = (0, 0, 0)%R).
Proof.
  apply (flower_disk 10 (fun _ => 0.5) 0%nat 0%nat). lia.
Defined.

Lemma rand_cursor (lo hi : R) (draws : nat -> R) (k : nat) :
  exists v : R, rand lo hi draws k = (v, S k).
Proof. unfold rand. unfold_sampler. eexists. reflexivity. Qed.

Lemma fill_cursor (type : string) (count c : nat) :
  (forall (i : nat) (draws : nat -> R) (k : nat),
     (samplePoint type i count draws k).2 = (k + c)%nat) ->
  forall (todo from : nat) (positions : list R) (draws : nat -> R) (k : nat),
    (fill type count todo from positions draws k).2 = (k + c * todo)%nat.
Proof.
  intros Hc. induction todo as [| todo IH]; intros from positions draws k.
  - cbn [fill]. unfold mret, sampler_ret. cbn [snd]. lia.
  - cbn [fill]. rewrite bind_run. pose proof (Hc from draws k) as Hk.
    destruct (samplePoint type from count draws k) as [p k']. cbn [snd] in Hk. subst k'.
    rewrite IH. lia.
Qed.

Lemma fill_flower (count : nat) :
  forall (todo from : nat) (positions : list R) (draws draws' : nat -> R) (k k' : nat),
    (fill "flower" count todo from positions draws k).1
    = (fill "flower" count todo from positions draws' k').1.
Proof.
  induction todo as [| todo IH]; intros from positions draws draws' k k'.
  - reflexivity.
  - cbn [fill]. rewrite !bind_run.
    change (samplePoint "flower" from count draws k) with (phyllotaxisPoint from count, k).
    change (samplePoint "flower" from count draws' k')
      with (phyllotaxisPoint from count, k').
    apply IH.
Qed.

(** The calls of [Math.random] of [generateGeometry] for [count] points: two
    for each point of the sphere, four for each point of the heart and of the
    fireworks, none for the flower, whose buffer is the same for every
    sequence of draws. *)
Theorem generateGeometry_draws (count : nat) (draws : nat -> R) (k : nat) :
  (generateGeometry "sphere" count draws k).2 = (k + 2 * count)%nat
  /\ (generateGeometry "heart" count draws k).2 = (k + 4 * count)%nat
  /\ (generateGeometry "fireworks" count draws k).2 = (k + 4 * count)%nat
  /\ (generateGeometry "flower" count draws k).2 = k
  /\ forall (draws' : nat -> R) (k' : nat),
      (generateGeometry "flower" count draws k).1
      = (generateGeometry "flower" count draws' k').1.
Proof.
  unfold generateGeometry. repeat split.
  - apply fill_cursor. intros i d c.
    destruct (randomOnSphere_run 1.1 d c) as (phi & theta & H).
    change (samplePoint "sphere" i count) with (randomOnSphere 1.1).
    rewrite H. cbn [snd]. lia.
  - apply fill_cursor. intros i d c.
    change (samplePoint "heart" i count) with heartPoint.
    unfold heartPoint, rand. unfold_sampler. cbn [snd]. lia.
  - apply fill_cursor. intros i d c.
    change (samplePoint "fireworks" i count) with (rand 1 1.8 ≫= randomInSphere).
    rewrite bind_run. destruct (rand_cursor 1 1.8 d c) as [radius ->].
    destruct (randomInSphere_run radius d (S c)) as (phi & theta & ->).
    cbn [snd]. lia.
  - rewrite (fill_cursor "flower" count 0); [lia |]. intros i d c.
    change (samplePoint "flower" i count d c) with (phyllotaxisPoint i count, c).
    cbn [snd]. lia.
  - intros draws' k'. apply fill_flower.
Qed.

End Shapes.
